(** * Minsky: the control loop of the research agent, and its search tool

    A shallow embedding of [src/agent/index.ts], [src/agent/state.ts] and
    the Perplexity search tool, with the properties of the control loop
    stated in the specification.

    Strings are modelled as Rocq [string]s: a JavaScript string is
    carried by its UTF-8 bytes. *)

From Stdlib Require Import String Ascii List Arith Bool Lia.
From Stdlib Require Import Numbers.DecimalString.
From Equations Require Import Equations.
From Equations.Prop Require Import Logic.
Import ListNotations.
Open Scope string_scope.

Set Warnings "-register-all".

(** ** Characters and small string helpers *)

Definition LF : ascii := "010"%char.
Definition DQUOTE : ascii := "034"%char.
Definition BACKSLASH : ascii := "092"%char.

Definition nl : string := String LF "".
Definition dq : string := String DQUOTE "".

(** [startsWith p s]: the string [s] begins with the literal [p]. *)
Fixpoint startsWith (p s : string) : bool :=
  match p with
  | EmptyString => true
  | String a p' =>
      match s with
      | String b s' => Ascii.eqb b a && startsWith p' s'
      | EmptyString => false
      end
  end.

(** [n] copies of the newline character. *)
Fixpoint newlines (n : nat) : string :=
  match n with
  | O => ""
  | S k => String LF (newlines k)
  end.

(** ** Text normalisation: [text.replace(/\n+: /g, ": ")]

    The regular expression is embedded as the backtracking matcher a
    JavaScript engine runs: [\n+] is greedy, so after the first newline
    the matcher first tries to take one more newline and only when the
    rest of the pattern fails from there does it fall back to matching
    [": "] at the current position. *)

(** The literal tail [": "] of the pattern; returns what follows it. *)
Definition matchColonSpace (s : string) : option string :=
  match s with
  | String a (String b rest) =>
      if Ascii.eqb a ":" && Ascii.eqb b " " then Some rest else None
  | _ => None
  end.

(** The rest of [\n+: ] once one newline has been consumed. *)
Fixpoint matchMoreNewlines (s : string) : option string :=
  match s with
  | String c rest =>
      if Ascii.eqb c LF then
        match matchMoreNewlines rest with
        | Some k => Some k
        | None => matchColonSpace s
        end
      else matchColonSpace s
  | EmptyString => matchColonSpace s
  end.

(** One attempt of [/\n+: /] anchored at the start of [s]: the text after
    the match, or [None]. *)
Definition matchDefinitionList (s : string) : option string :=
  match s with
  | String c rest => if Ascii.eqb c LF then matchMoreNewlines rest else None
  | EmptyString => None
  end.

Lemma matchColonSpace_length s r :
  matchColonSpace s = Some r -> String.length r < String.length s.
Proof.
  destruct s as [|a [|b s]]; simpl; try discriminate.
  destruct (Ascii.eqb a ":" && Ascii.eqb b " "); [|discriminate].
  intros H. injection H as <-. lia.
Qed.

Lemma matchMoreNewlines_length s r :
  matchMoreNewlines s = Some r -> String.length r < String.length s.
Proof.
  revert r. induction s as [|c s IH]; intros r; cbn [matchMoreNewlines].
  - discriminate.
  - destruct (Ascii.eqb c LF).
    + destruct (matchMoreNewlines s) as [k|] eqn:E.
      * intros H. injection H as <-. specialize (IH _ eq_refl). simpl. lia.
      * apply matchColonSpace_length.
    + apply matchColonSpace_length.
Qed.

Lemma matchDefinitionList_length s r :
  matchDefinitionList s = Some r -> String.length r < String.length s.
Proof.
  destruct s as [|c s]; simpl; [discriminate|].
  destruct (Ascii.eqb c LF); [|discriminate].
  intros H. apply matchMoreNewlines_length in H. lia.
Qed.

(** The global replace: scan left to right; where the pattern matches,
    emit the replacement and resume after the match, otherwise copy one
    character and move on. *)
Equations? fixDefinitionListSyntax (text : string) : string
  by wf (String.length text) lt :=
  fixDefinitionListSyntax EmptyString := EmptyString;
  fixDefinitionListSyntax (String c rest)
    with inspect (matchDefinitionList (String c rest)) := {
    | exist _ (Some after) Hm := ": " ++ fixDefinitionListSyntax after;
    | exist _ None _ := String c (fixDefinitionListSyntax rest) }.
Proof.
  - change (matchDefinitionList (String c rest) = Some after) in Hm.
    apply matchDefinitionList_length in Hm. simpl in Hm. lia.
Qed.

(** [true] when the string holds a newline somewhere. *)
Fixpoint hasNewline (s : string) : bool :=
  match s with
  | EmptyString => false
  | String c rest => Ascii.eqb c LF || hasNewline rest
  end.

(** [true] when the last character of the string is a newline. *)
Fixpoint endsWithNewline (s : string) : bool :=
  match s with
  | EmptyString => false
  | String c EmptyString => Ascii.eqb c LF
  | String _ rest => endsWithNewline rest
  end.

(** [true] when the string begins with a newline. *)
Definition startsWithNewline (s : string) : bool :=
  match s with
  | String c _ => Ascii.eqb c LF
  | EmptyString => false
  end.


(** ** Messages ([@langchain/core/messages])

    A message carries its type tag, its content, the tool calls of an
    assistant message and, for a tool message, the identifier of the call
    it answers and its success/error mark.  [instanceof HumanMessage] and [getType() === "human"]
    are both read off the type tag. *)

Inductive MessageType := human | ai | tool | system.

Definition MessageType_eqb (a b : MessageType) : bool :=
  match a, b with
  | human, human | ai, ai | tool, tool | system, system => true
  | _, _ => false
  end.

(** JSON values.  A number is carried by its rendering. *)
Inductive JSON :=
| JString (s : string)
| JNumber (literal : string)
| JBool (b : bool)
| JArray (items : list JSON)
| JObject (fields : list (string * JSON)).

(** Message content is a string or a list of content blocks; for the
    latter the embedding carries its [JSON.stringify] rendering, the only
    thing the code ever does with it. *)
Inductive MessageContent :=
| ContentText (text : string)
| ContentBlocks (stringified : string).

Record ToolCall := mkToolCall {
  call_name : string;
  call_args : JSON;
  call_id : string
}.

(** The success/error mark of a tool result. *)
Inductive ToolStatus := status_success | status_error.

Record BaseMessage := mkMessage {
  getType : MessageType;
  content : MessageContent;
  tool_calls : list ToolCall;
  tool_call_id : option string;
  tool_status : option ToolStatus
}.

(** [new AIMessage({ content })] *)
Definition AIMessage (c : string) : BaseMessage :=
  mkMessage ai (ContentText c) [] None None.

(** [new HumanMessage(content)] *)
Definition HumanMessage (c : string) : BaseMessage :=
  mkMessage human (ContentText c) [] None None.

(** [typeof content === "string" ? content : JSON.stringify(content)] *)
Definition contentToText (c : MessageContent) : string :=
  match c with
  | ContentText s => s
  | ContentBlocks j => j
  end.

(** The graph state of [MinskyAnnotation]: messages only. *)
Record MinskyState := mkState { messages : list BaseMessage }.

(** Modelled from the spec: [messagesStateReducer] of the LangGraph
    library, which is not among the sources.  "Merging multiple partial
    updates is by concatenation in emission order, never by replacement
    or deduplication." *)
Definition messagesStateReducer (st : MinskyState) (update : list BaseMessage)
  : MinskyState :=
  mkState (messages st ++ update).

(** [messages[messages.length - 1]]: [None] stands for [undefined]. *)
Definition lastMessageOf (msgs : list BaseMessage) : option BaseMessage :=
  match msgs with
  | [] => None
  | _ => nth_error msgs (List.length msgs - 1)
  end.

(** ** Exceptions and process-wide state *)

(** What a [throw] carries: an [Error] object with its message, or some
    other value ([error instanceof Error] tells them apart). *)
Inductive Thrown :=
| ErrorObject (message : string)
| OtherValue.

Inductive Outcome (A : Type) :=
| Ok (a : A)
| Throw (e : Thrown).
Arguments Ok {A} a.
Arguments Throw {A} e.

(** Reading a property of [undefined]. *)
Definition TypeError_undefined : Thrown :=
  ErrorObject "TypeError: Cannot read properties of undefined".

(** ** Constants of [state.ts] *)

Definition DEFAULT_MODEL : string := "grok-4-fast-reasoning".

Definition MAX_ITERATIONS : nat := 20.

(** ** The canned responder *)

Definition ABOUT_RESPONSE : string :=
  "I'm **Minsky**, a risk-focused financial research agent for traditional markets and crypto. I prioritize robustness over prediction, analyzing tail risks, volatility, and challenging fragile market narratives.

## What I Can Do

**Company Financials**
- Income statements, balance sheets, cash flow statements
- Financial metrics (P/E ratio, margins, growth rates)
- Segmented revenue breakdowns by product/region

**Market Data**
- Stock prices (current and historical)
- Cryptocurrency prices (BTC, ETH, SOL, etc.)
- Analyst estimates and price targets

**SEC Filings**
- 10-K annual reports
- 10-Q quarterly reports
- 8-K current reports (earnings, acquisitions, etc.)

**Ownership & Trading**
- Insider trades (executive buys/sells)
- Institutional ownership (hedge funds, mutual funds)

**News & Research**
- Company news
- Google News search

## Example Questions

- "
  ++ dq ++ "Compare Apple and Microsoft's profitability"
  ++ dq ++ "
- "
  ++ dq ++ "What's Tesla's revenue breakdown by segment?"
  ++ dq ++ "
- "
  ++ dq ++ "Show me insider trades for NVDA in the last 3 months"
  ++ dq ++ "
- "
  ++ dq ++ "What's Bitcoin's price trend this year?"
  ++ dq ++ "
- "
  ++ dq ++ "Summarize Amazon's latest 10-K risk factors"
  ++ dq ++ "

Just ask me anything about a company or stock!".

(** *** The built-ins [toLowerCase] and [trim]

    Text is carried by its UTF-8 bytes.  The patterns of
    [isAboutQuestion] are ASCII, so what matters of the two built-ins is
    which characters they turn into ASCII and which they remove.  Two
    characters outside ASCII have a lower case with an ASCII letter in
    it: KELVIN SIGN (U+212A), whose lower case is [k], and LATIN CAPITAL
    LETTER I WITH DOT ABOVE (U+0130), whose lower case is [i] followed by
    COMBINING DOT ABOVE (U+0307).  Every other character outside ASCII
    has a lower case outside ASCII and is carried as it is. *)

Definition isUpperAscii (c : ascii) : bool :=
  Nat.leb 65 (nat_of_ascii c) && Nat.leb (nat_of_ascii c) 90.

Definition lowerAscii (c : ascii) : ascii :=
  if isUpperAscii c then ascii_of_nat (nat_of_ascii c + 32) else c.

Definition byteIs (c : ascii) (n : nat) : bool := Nat.eqb (nat_of_ascii c) n.

(** The string of the given bytes. *)
Fixpoint bytes (l : list nat) : string :=
  match l with
  | [] => EmptyString
  | n :: rest => String (ascii_of_nat n) (bytes rest)
  end.

(** [String.prototype.toLowerCase].  U+0130 is the bytes C4 B0, U+0307
    the bytes CC 87, U+212A the bytes E2 84 AA. *)
Fixpoint toLowerCase (s : string) : string :=
  match s with
  | EmptyString => EmptyString
  | String c1 r1 =>
      if byteIs c1 196 then
        match r1 with
        | String c2 r2 =>
            if byteIs c2 176
            then String "i" (String (ascii_of_nat 204)
                               (String (ascii_of_nat 135) (toLowerCase r2)))
            else String c1 (toLowerCase r1)
        | EmptyString => String c1 EmptyString
        end
      else if byteIs c1 226 then
        match r1 with
        | String c2 (String c3 r3) =>
            if byteIs c2 132 && byteIs c3 170
            then String "k" (toLowerCase r3)
            else String c1 (toLowerCase r1)
        | _ => String c1 (toLowerCase r1)
        end
      else String (lowerAscii c1) (toLowerCase r1)
  end.

(** White space of the ASCII range: TAB, LF, VT, FF, CR and space. *)
Definition isAsciiWhiteSpace (c : ascii) : bool :=
  let n := nat_of_ascii c in
  (Nat.leb 9 n && Nat.leb n 13) || Nat.eqb n 32.

(** The white space and line terminators outside ASCII that [trim]
    removes, in UTF-8: U+00A0, U+1680, U+2000 to U+200A, U+2028, U+2029,
    U+202F, U+205F, U+3000 and U+FEFF. *)
Definition unicodeWhiteSpace : list string :=
  map bytes
    [ [194; 160]; [225; 154; 128];
      [226; 128; 128]; [226; 128; 129]; [226; 128; 130]; [226; 128; 131];
      [226; 128; 132]; [226; 128; 133]; [226; 128; 134]; [226; 128; 135];
      [226; 128; 136]; [226; 128; 137]; [226; 128; 138];
      [226; 128; 168]; [226; 128; 169]; [226; 128; 175]; [226; 129; 159];
      [227; 128; 128]; [239; 187; 191] ].

(** [isWhiteSpace ch]: the bytes [ch] are exactly one character that
    [trim] removes. *)
Definition isWhiteSpace (ch : string) : bool :=
  match ch with
  | EmptyString => false
  | String c rest =>
      if isAsciiWhiteSpace c then
        match rest with
        | EmptyString => true
        | String _ _ => false
        end
      else existsb (String.eqb ch) unicodeWhiteSpace
  end.

Fixpoint trimStart (s : string) : string :=
  match s with
  | EmptyString => EmptyString
  | String c1 r1 =>
      if isAsciiWhiteSpace c1 then trimStart r1
      else if Nat.ltb (nat_of_ascii c1) 128 then s
      else
        match r1 with
        | String c2 r2 =>
            if isWhiteSpace (String c1 (String c2 EmptyString))
            then trimStart r2
            else
              match r2 with
              | String c3 r3 =>
                  if isWhiteSpace (String c1 (String c2 (String c3 EmptyString)))
                  then trimStart r3
                  else s
              | EmptyString => s
              end
        | EmptyString => s
        end
  end.

(** From the right: a character is dropped when it is white space and
    everything after it has been dropped. *)
Fixpoint trimEnd (s : string) : string :=
  match s with
  | EmptyString => EmptyString
  | String c rest =>
      let kept := trimEnd rest in
      if isWhiteSpace (String c kept) then EmptyString else String c kept
  end.

(** [String.prototype.trim] *)
Definition trim (s : string) : string := trimEnd (trimStart s).

(** One alternative of a pattern: [^lit] or [^lit$]. *)
Inductive Alternative :=
| Prefix (lit : string)
| Exact (lit : string).

Definition testAlternative (a : Alternative) (s : string) : bool :=
  match a with
  | Prefix lit => startsWith lit s
  | Exact lit => String.eqb s lit
  end.

(** The five regular expressions of [isAboutQuestion], each as the list
    of its alternatives. *)
Definition patterns : list (list Alternative) :=
  [ [Prefix "what can you do"; Prefix "what do you do"];
    [Prefix "tell me about yourself"; Prefix "who are you"; Prefix "what are you"];
    [Prefix "help"; Prefix "how can you help"];
    [Prefix "what are your capabilities"; Prefix "what can i ask"];
    [Exact "hi"; Exact "hello"; Exact "hey"] ].

(** [p.test(lower)] *)
Definition test (p : list Alternative) (s : string) : bool :=
  existsb (fun a => testAlternative a s) p.

Definition isAboutQuestion (text : string) : bool :=
  let lower := trim (toLowerCase text) in
  existsb (fun p => test p lower) patterns.

(** ** Entry routing ([index.ts]) *)

Definition handleHardcodedResponse (state : MinskyState)
  : Outcome (option (list BaseMessage)) :=
  match lastMessageOf (messages state) with
  | None => Throw TypeError_undefined
  | Some lastMessage =>
      if negb (MessageType_eqb (getType lastMessage) human) then Ok None
      else
        let text := contentToText (content lastMessage) in
        if isAboutQuestion text then Ok (Some [AIMessage ABOUT_RESPONSE])
        else Ok None
  end.

Inductive InputRoute := route_hardcoded | route_agent.

Definition routeInput (state : MinskyState) : Outcome InputRoute :=
  match handleHardcodedResponse state with
  | Throw e => Throw e
  | Ok (Some _) => Ok route_hardcoded
  | Ok None => Ok route_agent
  end.

Definition returnHardcodedResponse (state : MinskyState)
  : Outcome (list BaseMessage) :=
  match handleHardcodedResponse state with
  | Throw e => Throw e
  | Ok (Some update) => Ok update
  | Ok None => Ok []
  end.

(** [getQueryFromMessages] ([state.ts]): the loop
    [for (i = messages.length - 1; i >= 0; i--)], with [i] the number of
    indices still to visit. *)
Fixpoint getQueryFrom (msgs : list BaseMessage) (i : nat) : string :=
  match i with
  | O => ""
  | S j =>
      match nth_error msgs j with
      | Some m =>
          if MessageType_eqb (getType m) human then contentToText (content m)
          else getQueryFrom msgs j
      | None => getQueryFrom msgs j
      end
  end.

Definition getQueryFromMessages (msgs : list BaseMessage) : string :=
  getQueryFrom msgs (List.length msgs).

(** ** Process-wide state and the effect monad

    [iterationCount] is a module-level variable of [index.ts]: one per
    process.  [console] collects what [console.warn] prints.  A
    computation reads and writes the process state and either returns or
    throws; what it wrote before a throw stays written. *)

Record Process := mkProcess {
  iterationCount : nat;
  console : list string
}.

Definition M (A : Type) : Type := Process -> Outcome A * Process.

Definition ret {A} (a : A) : M A := fun p => (Ok a, p).

Definition raise {A} (e : Thrown) : M A := fun p => (Throw e, p).

Definition bind {A B} (c : M A) (k : A -> M B) : M B :=
  fun p =>
    match c p with
    | (Ok a, p') => k a p'
    | (Throw e, p') => (Throw e, p')
    end.

Definition lift {A} (o : Outcome A) : M A := fun p => (o, p).

Notation "x <- c ;; k" := (bind c (fun x => k))
  (at level 61, c at next level, right associativity).

Definition setIterationCount (n : nat) : M unit :=
  fun p => (Ok tt, mkProcess n (console p)).

Definition getIterationCount : M nat :=
  fun p => (Ok (iterationCount p), p).

Definition console_warn (line : string) : M unit :=
  fun p => (Ok tt, mkProcess (iterationCount p) (console p ++ [line])).

(** Decimal rendering of a number inside a template literal. *)
Definition natToString (n : nat) : string :=
  NilEmpty.string_of_uint (Nat.to_uint n).

(** ** The reasoning step *)

(** What [modelWithTools.invoke] resolves to: an assistant message. *)
Record ModelResponse := mkResponse {
  response_content : MessageContent;
  response_tool_calls : list ToolCall
}.

Definition responseMessage (r : ModelResponse) : BaseMessage :=
  mkMessage ai (response_content r) (response_tool_calls r) None None.

(** [if (typeof response.content === "string" && response.content)
       response.content = fixDefinitionListSyntax(response.content)] *)
Definition fixResponseContent (r : ModelResponse) : ModelResponse :=
  match response_content r with
  | ContentText s =>
      if String.eqb s "" then r
      else mkResponse (ContentText (fixDefinitionListSyntax s)) (response_tool_calls r)
  | ContentBlocks _ => r
  end.

Definition announcement : string := "ðŸ” Researching...".

Definition summary : string := "âœ“ Data retrieved. Analyzing...".

Inductive OutputRoute := route_end | route_tools.

Definition hasToolCalls (m : BaseMessage) : bool :=
  match tool_calls m with
  | [] => false
  | _ :: _ => true
  end.

(** The line [routeModelOutput] prints when it trips the ceiling. *)
Definition ceilingWarning : string :=
  "Max iterations (" ++ natToString MAX_ITERATIONS ++ ") reached, forcing end".

(** [routeModelOutput]: the ceiling check comes first, then the look at
    the last message. *)
Definition routeModelOutput (state : MinskyState) : M OutputRoute :=
  n <- getIterationCount ;;
  if Nat.leb MAX_ITERATIONS n then
    _ <- console_warn ceilingWarning ;;
    _ <- setIterationCount 0 ;;
    ret route_end
  else
    match lastMessageOf (messages state) with
    | None => raise TypeError_undefined
    | Some lastMessage =>
        if MessageType_eqb (getType lastMessage) ai && hasToolCalls lastMessage
        then ret route_tools
        else
          _ <- setIterationCount 0 ;;
          ret route_end
    end.

Definition announceToolCalls (state : MinskyState) : Outcome (list BaseMessage) :=
  match lastMessageOf (messages state) with
  | None => Throw TypeError_undefined
  | Some lastMessage =>
      if negb (MessageType_eqb (getType lastMessage) ai) then Ok []
      else
        match tool_calls lastMessage with
        | [] => Ok []
        | _ :: _ => Ok [AIMessage announcement]
        end
  end.

(** The backward loop of [summarizeToolResults]; [i] counts the indices
    still to visit and [acc] is [toolMessages] ([unshift] puts in front). *)
Fixpoint collectToolMessages (msgs : list BaseMessage) (i : nat)
  (acc : list BaseMessage) : list BaseMessage :=
  match i with
  | O => acc
  | S j =>
      match nth_error msgs j with
      | Some msg =>
          match getType msg with
          | tool => collectToolMessages msgs j (msg :: acc)
          | ai => acc
          | _ => collectToolMessages msgs j acc
          end
      | None => collectToolMessages msgs j acc
      end
  end.

Definition summarizeToolResults (state : MinskyState) : list BaseMessage :=
  let toolMessages :=
    collectToolMessages (messages state) (List.length (messages state)) [] in
  match toolMessages with
  | [] => []
  | _ :: _ => [AIMessage summary]
  end.

(** ** The graph

    The reasoning client and the tool node are collaborators of the loop.
    [respond n transcript] is the outcome of the [(n+1)]-th call of the
    client in a run ([Throw] when the call fails).  [toolNode] maps the
    state to the tool-result turns the node appends; the loop itself is
    stated for any such function. *)

Inductive Node := START | hardcoded | agent | announce | tools | progress | END.

Definition Node_eqb (a b : Node) : bool :=
  match a, b with
  | START, START | hardcoded, hardcoded | agent, agent | announce, announce
  | tools, tools | progress, progress | END, END => true
  | _, _ => false
  end.

Definition Node_eq_dec (a b : Node) : {a = b} + {a <> b}.
Proof. decide equality. Defined.

(** One run of the graph: where it stands, its state, the number of
    calls of the reasoning client so far and the nodes executed so far. *)
Record Session := mkSession {
  node : Node;
  state : MinskyState;
  reasoningCalls : nat;
  visited : list Node
}.

Definition startSession (msgs : list BaseMessage) : Session :=
  mkSession START (mkState msgs) 0 [].

(** What a run is given from outside: the reasoning client and the
    tool node. *)
Record Collaborators := mkCollaborators {
  respond : nat -> list BaseMessage -> Outcome ModelResponse;
  toolNode : MinskyState -> list BaseMessage
}.

(** How a run stands after some transitions: at [END], stopped by an
    exception, or still under way. *)
Inductive RunResult :=
| Finished (p : Process) (s : Session)
| Aborted (e : Thrown) (p : Process) (s : Session)
| Running (p : Process) (s : Session).

(** The nodes of the reasoning cycle. *)
Definition inLoop (n : Node) : Prop :=
  n = agent \/ n = announce \/ n = tools \/ n = progress.

(** A reasoning client that asks for at least one tool on every call. *)
Definition alwaysRequestsTools (collab : Collaborators) : Prop :=
  forall calls transcript,
    exists r, respond collab calls transcript = Ok r
              /\ response_tool_calls r <> [].

(** The conversation after one tool cycle (announce, tools, progress)
    that follows the assistant turn [m]. *)
Definition afterCycle (collab : Collaborators) (earlier : list BaseMessage)
  (m : BaseMessage) : list BaseMessage :=
  let announced := ((earlier ++ [m]) ++ [AIMessage announcement])%list in
  let dispatched := (announced ++ toolNode collab (mkState announced))%list in
  (dispatched ++ summarizeToolResults (mkState dispatched))%list.

Section Graph.

Variable AGENT_SYSTEM_PROMPT : string.
Variable collab : Collaborators.

Definition systemMessage : BaseMessage :=
  mkMessage system (ContentText AGENT_SYSTEM_PROMPT) [] None None.

(** [callModel]: invoke the model on the system prompt and the whole
    transcript, normalise the text, count the iteration. *)
Definition callModel (calls : nat) (st : MinskyState) : M (list BaseMessage) :=
  response <- lift (respond collab calls (systemMessage :: messages st)) ;;
  let response := fixResponseContent response in
  n <- getIterationCount ;;
  _ <- setIterationCount (n + 1) ;;
  ret [responseMessage response].

(** Leaving a node: merge its update into the state and move on. *)
Definition leave (s : Session) (update : list BaseMessage) (next : Node)
  : Session :=
  mkSession next (messagesStateReducer (state s) update)
            (reasoningCalls s) (visited s ++ [node s]).

(** One transition of the compiled [workflow]: the conditional edge out
    of [START], or the execution of the current node followed by its
    outgoing edge. *)
Definition step (s : Session) : M Session :=
  match node s with
  | START =>
      r <- lift (routeInput (state s)) ;;
      ret (mkSession (match r with
                      | route_hardcoded => hardcoded
                      | route_agent => agent
                      end)
                     (state s) (reasoningCalls s) (visited s))
  | hardcoded =>
      update <- lift (returnHardcodedResponse (state s)) ;;
      ret (leave s update END)
  | agent =>
      update <- callModel (reasoningCalls s) (state s) ;;
      let merged := messagesStateReducer (state s) update in
      r <- routeModelOutput merged ;;
      ret (mkSession (match r with
                      | route_tools => announce
                      | route_end => END
                      end)
                     merged (S (reasoningCalls s)) (visited s ++ [agent]))
  | announce =>
      update <- lift (announceToolCalls (state s)) ;;
      ret (leave s update tools)
  | tools => ret (leave s (toolNode collab (state s)) progress)
  | progress => ret (leave s (summarizeToolResults (state s)) agent)
  | END => ret s
  end.

(** Run the graph until it reaches [END], a node throws, or the given
    number of transitions is used up. *)
Fixpoint run (fuel : nat) (p : Process) (s : Session) : RunResult :=
  if Node_eqb (node s) END then Finished p s
  else
    match fuel with
    | O => Running p s
    | S fuel' =>
        match step s p with
        | (Ok s', p') => run fuel' p' s'
        | (Throw e, p') => Aborted e p' s
        end
    end.

End Graph.

(** ** JSON.stringify *)

Definition hexDigit (n : nat) : ascii :=
  if Nat.ltb n 10 then ascii_of_nat (48 + n) else ascii_of_nat (87 + n).

(** One character inside a JSON string literal. *)
Definition escapeChar (c : ascii) : string :=
  let n := nat_of_ascii c in
  if Ascii.eqb c DQUOTE then String BACKSLASH (String DQUOTE "")
  else if Ascii.eqb c BACKSLASH then String BACKSLASH (String BACKSLASH "")
  else if Nat.eqb n 8 then String BACKSLASH "b"
  else if Nat.eqb n 12 then String BACKSLASH "f"
  else if Nat.eqb n 10 then String BACKSLASH "n"
  else if Nat.eqb n 13 then String BACKSLASH "r"
  else if Nat.eqb n 9 then String BACKSLASH "t"
  else if Nat.ltb n 32 then
    String BACKSLASH ("u00" ++ String (hexDigit (n / 16)) (String (hexDigit (n mod 16)) ""))
  else String c "".

Fixpoint escapeString (s : string) : string :=
  match s with
  | EmptyString => EmptyString
  | String c rest => escapeChar c ++ escapeString rest
  end.

Definition quoteString (s : string) : string :=
  dq ++ escapeString s ++ dq.

Fixpoint JSON_stringify (j : JSON) : string :=
  match j with
  | JString s => quoteString s
  | JNumber literal => literal
  | JBool b => if b then "true" else "false"
  | JArray items =>
      "[" ++ (fix elements (l : list JSON) : string :=
                match l with
                | [] => ""
                | [x] => JSON_stringify x
                | x :: rest => JSON_stringify x ++ "," ++ elements rest
                end) items ++ "]"
  | JObject fields =>
      "{" ++ (fix members (l : list (string * JSON)) : string :=
                match l with
                | [] => ""
                | [(k, v)] => quoteString k ++ ":" ++ JSON_stringify v
                | (k, v) :: rest =>
                    quoteString k ++ ":" ++ JSON_stringify v ++ "," ++ members rest
                end) fields ++ "}"
  end.

(** [obj.key] on a JSON object: the first field of that name. *)
Fixpoint lookupField (key : string) (fields : list (string * JSON)) : option JSON :=
  match fields with
  | [] => None
  | (k, v) :: rest => if String.eqb k key then Some v else lookupField key rest
  end.

(** ** JSON.parse, on string literals *)






(** ** The search tool *)

Definition bindO {A B} (o : Outcome A) (k : A -> Outcome B) : Outcome B :=
  match o with
  | Ok a => k a
  | Throw e => Throw e
  end.

Notation "x <-- c ;; k" := (bindO c (fun x => k))
  (at level 61, c at next level, right associativity).

(** [try { body } catch (error) { handler }] *)
Definition try_catch {A} (body : Outcome A) (handler : Thrown -> Outcome A)
  : Outcome A :=
  match body with
  | Ok a => Ok a
  | Throw error => handler error
  end.

(** A registered tool: its name and its execution on an argument
    payload, schema validation included. *)
Record StructuredTool := mkTool {
  tool_name : string;
  invoke : JSON -> Outcome string
}.

Module Perplexity.

Definition PERPLEXITY_API_URL : string :=
"https://api.perplexity.ai/chat/completions".

Inductive Focus := finance | news | general.

Definition focusName (f : Focus) : string :=
match f with
| finance => "finance"
| news => "news"
| general => "general"
end.

(** What [PerplexitySearchInputSchema] lets through. *)
Record PerplexitySearchInput := mkInput {
query : string;
focus : Focus
}.

Record PerplexityMessage := mkPMessage {
role : string;
pcontent : string
}.

(** The part of the response body the code reads.  A [choices] that is
  absent makes [data.choices[0]] throw; an absent [message] or
  [content] is absorbed by the optional chaining. *)
Record Choice := mkChoice { message_content : option string }.

Record PerplexityResponse := mkData {
choices : option (list Choice);
citations : option (list string)
}.

(** The result of [fetch]: the status line and the two body readers,
  each of which may reject. *)
Record Response := mkHttp {
ok : bool;
status : nat;
text : Outcome string;
json : Outcome PerplexityResponse
}.

Record Request := mkRequest {
url : string;
method : string;
headers : list (string * string);
body : string
}.

(** The world the tool runs in: the environment variable and the
  network, which may reject the request. *)
Record Environment := mkEnv {
PERPLEXITY_API_KEY : option string;
fetch : Request -> Outcome Response
}.

Definition formatInstructions : string :=
"Use plain text and standard markdown only. Never use definition list syntax (lines starting with " ++ dq ++ ": " ++ dq ++ "). For key-value pairs, use " ++ dq ++ "Key: value" ++ dq ++ " on the same line or use tables.".

(** [systemPrompts[focus]] *)
Definition systemPrompts (key : string) : option string :=
if String.eqb key "finance" then
  Some ("You are a financial research assistant. Provide accurate, data-driven answers about financial markets, company performance, stock analysis, and economic trends. Include specific numbers, dates, and sources when available. Focus on factual information rather than speculation." ++ " " ++ formatInstructions)
else if String.eqb key "news" then
  Some ("You are a news research assistant focused on financial and market news. Provide summaries of recent news, market events, and developments. Include dates and sources. Focus on the most relevant and recent information." ++ " " ++ formatInstructions)
else if String.eqb key "general" then
  Some ("You are a research assistant helping with market research. Provide comprehensive, well-sourced answers. Include relevant context and background information." ++ " " ++ formatInstructions)
else None.

Definition generalPrompt : string :=
match systemPrompts "general" with
| Some p => p
| None => ""
end.

Definition messageJSON (m : PerplexityMessage) : JSON :=
JObject [("role", JString (role m)); ("content", JString (pcontent m))].

Definition searchRequest (apiKey q focusKey : string) : Request :=
let msgs :=
  [ mkPMessage "system"
      (match systemPrompts focusKey with
       | Some p => if String.eqb p "" then generalPrompt else p
       | None => generalPrompt
       end);
    mkPMessage "user" q ] in
mkRequest PERPLEXITY_API_URL "POST"
  [("Authorization", "Bearer " ++ apiKey); ("Content-Type", "application/json")]
  (JSON_stringify
     (JObject [("model", JString "sonar");
               ("messages", JArray (map messageJSON msgs));
               ("max_tokens", JNumber "2048");
               ("temperature", JNumber "0.1");
               ("return_citations", JBool true)])).

Definition missingKeyMessage : string :=
"PERPLEXITY_API_KEY environment variable is not set. Please add it to your .env file.".

Definition apiErrorMessage (code : nat) (errorText : string) : string :=
"Perplexity API error (" ++ natToString code ++ "): " ++ errorText.

(** [data.choices[0]?.message?.content || "No response received"] *)
Definition firstAnswer (cs : list Choice) : string :=
match cs with
| c :: _ =>
    match message_content c with
    | Some s => if String.eqb s "" then "No response received" else s
    | None => "No response received"
    end
| [] => "No response received"
end.

Definition callPerplexityApi (env : Environment) (q focusKey : string)
: Outcome (string * list string) :=
match PERPLEXITY_API_KEY env with
| None => Throw (ErrorObject missingKeyMessage)
| Some apiKey =>
    if String.eqb apiKey "" then Throw (ErrorObject missingKeyMessage)
    else
      response <-- fetch env (searchRequest apiKey q focusKey) ;;
      if negb (ok response) then
        errorText <-- text response ;;
        Throw (ErrorObject (apiErrorMessage (status response) errorText))
      else
        data <-- json response ;;
        match choices data with
        | None => Throw TypeError_undefined
        | Some cs =>
            Ok (fixDefinitionListSyntax (firstAnswer cs),
                match citations data with
                | Some l => l
                | None => []
                end)
        end
end.

(** [error instanceof Error ? error.message : "Unknown error occurred"] *)
Definition errorMessageOf (error : Thrown) : string :=
match error with
| ErrorObject message => message
| OtherValue => "Unknown error occurred"
end.

Definition successResult (input : PerplexitySearchInput)
(result : string * list string) : string :=
JSON_stringify
  (JObject [("query", JString (query input));
            ("focus", JString (focusName (focus input)));
            ("answer", JString (fst result));
            ("citations", JArray (map JString (snd result)))]).

Definition errorResult (errorMessage q : string) : string :=
JSON_stringify (JObject [("error", JString errorMessage); ("query", JString q)]).

(** [searchPerplexity.func] *)
Definition searchPerplexity_func (env : Environment) (input : PerplexitySearchInput)
: Outcome string :=
try_catch
  (result <-- callPerplexityApi env (query input) (focusName (focus input)) ;;
   Ok (successResult input result))
  (fun error => Ok (errorResult (errorMessageOf error) (query input))).

(** [PerplexitySearchInputSchema.parse]: an object with a string [query]
  and a [focus] out of the three names. *)
Definition parseFocus (s : string) : option Focus :=
if String.eqb s "finance" then Some finance
else if String.eqb s "news" then Some news
else if String.eqb s "general" then Some general
else None.

Definition parseInput (args : JSON) : option PerplexitySearchInput :=
match args with
| JObject fields =>
    match lookupField "query" fields, lookupField "focus" fields with
    | Some (JString q), Some (JString f) =>
        match parseFocus f with
        | Some fo => Some (mkInput q fo)
        | None => None
        end
    | _, _ => None
    end
| _ => None
end.

(** The tool as registered: schema validation, then [func]. *)
Definition searchPerplexity (env : Environment) : StructuredTool :=
mkTool "search_perplexity"
  (fun args =>
     match parseInput args with
     | Some input => searchPerplexity_func env input
     | None => Throw (ErrorObject "Received tool input did not match expected schema")
     end).

End Perplexity.

(** ** The tool registry and its dispatch *)

(** Modelled from the spec: [LANGCHAIN_TOOLS] of [tools.ts], which is not
    among the sources.  "Exactly one tool ships with this core: a
    market/news research search." *)
Definition LANGCHAIN_TOOLS (env : Perplexity.Environment) : list StructuredTool :=
  [Perplexity.searchPerplexity env].

Definition findTool (registry : list StructuredTool) (name : string)
  : option StructuredTool :=
  find (fun t => String.eqb (tool_name t) name) registry.

(** Modelled from the spec: the dispatch of one request by the tool
    node, whose code is not among the sources.  "(a) look up by name:
    unknown name is a dispatch error, not a crash; (b) validate argument
    payload against the schema: validation failure is a dispatch error;
    (c) invoke the tool's execution function; (d) catch any failure
    raised during execution and convert it into a ToolResult with the
    error discriminant".  The result answers the request's identifier. *)
Definition dispatch (registry : list StructuredTool) (call : ToolCall)
  : BaseMessage :=
  match findTool registry (call_name call) with
  | None =>
      mkMessage tool (ContentText ("Error: unknown tool " ++ call_name call))
                [] (Some (call_id call)) (Some status_error)
  | Some t =>
      match invoke t (call_args call) with
      | Ok output =>
          mkMessage tool (ContentText output) [] (Some (call_id call))
                    (Some status_success)
      | Throw e =>
          mkMessage tool (ContentText ("Error: " ++ Perplexity.errorMessageOf e))
                    [] (Some (call_id call)) (Some status_error)
      end
  end.

(** Modelled from the spec: which requests the tool node resolves.
    "Dispatch: for every ToolInvocationRequest emitted by the most recent
    assistant Turn, call the Tool Registry's dispatch and append the
    resulting ToolResult Turn."  The most recent assistant turn is the
    latest message of the assistant type in the conversation, whatever
    it carries: status turns are ordinary assistant turns. *)
Definition latestRequests (msgs : list BaseMessage) : list ToolCall :=
  match find (fun m => MessageType_eqb (getType m) ai) (rev msgs) with
  | Some m => tool_calls m
  | None => []
  end.

(** Modelled from the spec: the prebuilt [ToolNode] of the LangGraph
    library, which is not among the sources.  One tool-result turn per
    request, "in the same order as their corresponding
    ToolInvocationRequests were emitted". *)
Definition ToolNode (registry : list StructuredTool) (st : MinskyState)
  : list BaseMessage :=
  map (dispatch registry) (latestRequests (messages st)).

(** ** Several sessions in one process

    Two runs of the graph share the process, hence [iterationCount].
    The schedule says which of them makes the next transition; a session
    whose node throws stays where it is. *)

Inductive SessionId := sessionA | sessionB.

Section Interleaving.

Variable AGENT_SYSTEM_PROMPT : string.
Variables collabA collabB : Collaborators.

Fixpoint runSchedule (schedule : list SessionId) (p : Process) (a b : Session)
  : Process * Session * Session :=
  match schedule with
  | [] => (p, a, b)
  | sessionA :: rest =>
      match step AGENT_SYSTEM_PROMPT collabA a p with
      | (Ok a', p') => runSchedule rest p' a' b
      | (Throw _, p') => runSchedule rest p' a b
      end
  | sessionB :: rest =>
      match step AGENT_SYSTEM_PROMPT collabB b p with
      | (Ok b', p') => runSchedule rest p' a b'
      | (Throw _, p') => runSchedule rest p' a b
      end
  end.

End Interleaving.

(** ** Scenarios *)

Module Scenario.

Definition prompt : string := "You are Minsky.".

Definition question : BaseMessage :=
  HumanMessage "What are NVIDIA's tail risks?".

Definition searchCall : ToolCall :=
  mkToolCall "search_perplexity"
    (JObject [("query", JString "NVIDIA tail risks");
              ("focus", JString "finance")])
    "call_1".

Definition toolRequest : ModelResponse :=
  mkResponse (ContentText "") [searchCall].

Definition answer : ModelResponse :=
  mkResponse (ContentText "Concentration in AI demand is the main tail risk.") [].

(** No credential in the environment, and a network that is down. *)
Definition noCredentials : Perplexity.Environment :=
  Perplexity.mkEnv None (fun _ => Throw (ErrorObject "fetch failed")).

(** A credential, and a backend that answers 503. *)
Definition backendDown : Perplexity.Environment :=
  Perplexity.mkEnv (Some "pplx-key")
    (fun _ => Ok (Perplexity.mkHttp false 503 (Ok "Service Unavailable")
                    (Throw (ErrorObject "Unexpected token")))).

(** A client that asks for the search first and answers on its second
    call. *)
Definition requestThenAnswer : Collaborators :=
  mkCollaborators
    (fun calls _ =>
       match calls with
       | O => Ok toolRequest
       | S _ => Ok answer
       end)
    (ToolNode (LANGCHAIN_TOOLS noCredentials)).

(** A client that asks for the search first and whose second call
    fails. *)
Definition requestThenFail : Collaborators :=
  mkCollaborators
    (fun calls _ =>
       match calls with
       | O => Ok toolRequest
       | S _ => Throw (ErrorObject "Connection error.")
       end)
    (ToolNode (LANGCHAIN_TOOLS noCredentials)).

(** A client that asks for the search on every call. *)
Definition alwaysRequest : Collaborators :=
  mkCollaborators (fun _ _ => Ok toolRequest)
                  (ToolNode (LANGCHAIN_TOOLS noCredentials)).

End Scenario.

(** ** Further parts of the sources *)

(** [/\n+: /.test(s)]: the pattern of [fixDefinitionListSyntax] occurs
    somewhere in [s]. *)
Fixpoint hasDefinitionListBreak (s : string) : bool :=
  match s with
  | EmptyString => false
  | String c rest =>
      match matchDefinitionList s with
      | Some _ => true
      | None => hasDefinitionListBreak rest
      end
  end.

(** Every byte of the string is in the ASCII range. *)
Fixpoint isAsciiText (s : string) : bool :=
  match s with
  | EmptyString => true
  | String c rest => Nat.ltb (nat_of_ascii c) 128 && isAsciiText rest
  end.

(** A literal that begins and ends with a character that is not white
    space survives the trimming at the front of any text. *)
Definition firstNotWhite (s : string) : bool :=
  match s with
  | String c _ => negb (isAsciiWhiteSpace c)
  | EmptyString => false
  end.

Fixpoint lastNotWhite (s : string) : bool :=
  match s with
  | EmptyString => false
  | String c EmptyString => negb (isAsciiWhiteSpace c)
  | String _ rest => lastNotWhite rest
  end.

(** A byte that can begin a character: not a UTF-8 continuation byte. *)
Definition startsCharacter (s : string) : bool :=
  match s with
  | EmptyString => true
  | String c _ => Nat.ltb (nat_of_ascii c) 128 || Nat.leb 192 (nat_of_ascii c)
  end.

(** The first byte of the string is [n]. *)
Definition firstByteIs (n : nat) (s : string) : bool :=
  match s with
  | EmptyString => false
  | String c _ => byteIs c n
  end.

(** The string begins with the last two bytes of KELVIN SIGN. *)
Definition kelvinTail (s : string) : bool :=
  match s with
  | EmptyString => false
  | String c rest => byteIs c 132 && firstByteIs 170 rest
  end.

(** Every character that [trim] removes. *)
Definition whiteSpaceCharacters : list string :=
  (map bytes [[9]; [10]; [11]; [12]; [13]; [32]] ++ unicodeWhiteSpace)%list.

(** The nine capability prefixes and the three greetings of
    [isAboutQuestion]. *)
Definition capabilityPrefixes : list string :=
  [ "what can you do"; "what do you do"; "tell me about yourself";
    "who are you"; "what are you"; "help"; "how can you help";
    "what are your capabilities"; "what can i ask" ].

Definition greetings : list string := [ "hi"; "hello"; "hey" ].

Definition isHuman (m : BaseMessage) : bool := MessageType_eqb (getType m) human.
Definition isAI (m : BaseMessage) : bool := MessageType_eqb (getType m) ai.
Definition isTool (m : BaseMessage) : bool := MessageType_eqb (getType m) tool.

(** [ChatGrok.invocationParams]: the parameters of the parent class with
    the two keys Grok does not support deleted.  The invocation
    parameters are an object, carried as its list of fields; what
    [super.invocationParams(options, extra)] returns is the argument. *)
Definition deleteField (key : string) (fields : list (string * JSON))
  : list (string * JSON) :=
  filter (fun kv => negb (String.eqb (fst kv) key)) fields.

Definition invocationParams (superParams : list (string * JSON))
  : list (string * JSON) :=
  let params := superParams in
  let params := deleteField "presence_penalty" params in
  let params := deleteField "frequency_penalty" params in
  params.

(** How a finished or aborted run is read: the session it stopped in. *)
Definition stoppedSession (r : RunResult) : option Session :=
  match r with
  | Finished _ s => Some s
  | Aborted _ _ s => Some s
  | Running _ _ => None
  end.

(** The turns of the first session in a schedule, and what an
    interleaved run leaves of the process and of the first session. *)
Definition isSessionA (t : SessionId) : bool :=
  match t with
  | sessionA => true
  | sessionB => false
  end.

Definition viewA (r : Process * Session * Session) : Process * Session :=
  (fst (fst r), snd (fst r)).

(** Where a session that took, or is about to take, the canned route can
    stand. *)
Definition onCannedPath (b : Session) : Prop :=
  (node b = START /\ routeInput (state b) = Ok route_hardcoded)
  \/ node b = hardcoded \/ node b = END.

(** The first keys of the two shapes of the search tool's result. *)
Definition errorResultPrefix : string := "{" ++ dq ++ "error" ++ dq ++ ":".
Definition successResultPrefix : string := "{" ++ dq ++ "query" ++ dq ++ ":".

(** * Properties *)

(** ** Text normalisation *)

Lemma append_nil_r_aux (s : string) : s ++ "" = s.
Proof. induction s as [|c s IH]; simpl; [reflexivity | now rewrite IH]. Qed.

Lemma startsWith_cons a p b s :
  startsWith (String a p) (String b s) = Ascii.eqb b a && startsWith p s.
Proof. reflexivity. Qed.

(** Unfolding equations of the replace loop. *)
Lemma fix_match c rest after :
  matchDefinitionList (String c rest) = Some after ->
  fixDefinitionListSyntax (String c rest) = ": " ++ fixDefinitionListSyntax after.
Proof.
  intros H. simp fixDefinitionListSyntax.
  destruct (inspect (matchDefinitionList (String c rest))) as [[a|] Ha];
    simp fixDefinitionListSyntax; congruence.
Qed.

Lemma fix_nomatch c rest :
  matchDefinitionList (String c rest) = None ->
  fixDefinitionListSyntax (String c rest) = String c (fixDefinitionListSyntax rest).
Proof.
  intros H. simp fixDefinitionListSyntax.
  destruct (inspect (matchDefinitionList (String c rest))) as [[a|] Ha];
    simp fixDefinitionListSyntax; congruence.
Qed.

Lemma fix_empty : fixDefinitionListSyntax "" = "".
Proof. now simp fixDefinitionListSyntax. Qed.

Lemma fix_other c rest :
  Ascii.eqb c LF = false ->
  fixDefinitionListSyntax (String c rest) = String c (fixDefinitionListSyntax rest).
Proof.
  intros H. apply fix_nomatch. simpl. now rewrite H.
Qed.

Lemma matchColonSpace_prefix s :
  matchColonSpace s = None <-> startsWith ": " s = false.
Proof.
  destruct s as [|a [|b s]]; simpl.
  - tauto.
  - destruct (Ascii.eqb a ":"); simpl; tauto.
  - rewrite andb_true_r.
    destruct (Ascii.eqb a ":" && Ascii.eqb b " "); split; congruence.
Qed.

Lemma matchColonSpace_LF s : matchColonSpace (String LF s) = None.
Proof. destruct s; reflexivity. Qed.

Lemma matchMoreNewlines_run n b :
  matchMoreNewlines (newlines n ++ ": " ++ b) = Some b.
Proof.
  induction n as [|n IH].
  - reflexivity.
  - change (newlines (S n) ++ ": " ++ b) with (String LF (newlines n ++ ": " ++ b)).
    cbn [matchMoreNewlines]. change (Ascii.eqb LF LF) with true. cbv iota.
    now rewrite IH.
Qed.

Lemma matchMoreNewlines_kept n b :
  startsWithNewline b = false -> startsWith ": " b = false ->
  matchMoreNewlines (newlines n ++ b) = None.
Proof.
  intros Hnl Hp. apply matchColonSpace_prefix in Hp.
  induction n as [|n IH].
  - simpl. destruct b as [|c b]; [reflexivity|].
    cbn [matchMoreNewlines]. simpl in Hnl. now rewrite Hnl.
  - change (newlines (S n) ++ b) with (String LF (newlines n ++ b)).
    cbn [matchMoreNewlines]. change (Ascii.eqb LF LF) with true. cbv iota.
    rewrite IH. apply matchColonSpace_LF.
Qed.

Lemma fix_run n b :
  fixDefinitionListSyntax (newlines (S n) ++ ": " ++ b)
  = ": " ++ fixDefinitionListSyntax b.
Proof.
  change (newlines (S n) ++ ": " ++ b) with (String LF (newlines n ++ ": " ++ b)).
  apply fix_match. cbn [matchDefinitionList].
  change (Ascii.eqb LF LF) with true. cbv iota. apply matchMoreNewlines_run.
Qed.

Lemma fix_kept n b :
  startsWithNewline b = false -> startsWith ": " b = false ->
  fixDefinitionListSyntax (newlines n ++ b)
  = newlines n ++ fixDefinitionListSyntax b.
Proof.
  intros Hnl Hp. induction n as [|n IH]; [reflexivity|].
  change (newlines (S n) ++ b) with (String LF (newlines n ++ b)).
  rewrite fix_nomatch.
  - rewrite IH. reflexivity.
  - cbn [matchDefinitionList]. change (Ascii.eqb LF LF) with true. cbv iota.
    now apply matchMoreNewlines_kept.
Qed.

Lemma fix_label a s :
  hasNewline a = false ->
  fixDefinitionListSyntax (a ++ s) = a ++ fixDefinitionListSyntax s.
Proof.
  induction a as [|c a IH]; simpl; intros H; [reflexivity|].
  apply orb_false_iff in H as [Hc Ha].
  rewrite fix_other by assumption. now rewrite IH.
Qed.

Lemma append_assoc_aux (a b c : string) : (a ++ b) ++ c = a ++ b ++ c.
Proof. induction a as [|x a IH]; simpl; [reflexivity | now rewrite IH]. Qed.

(** What follows a newline-terminated text can change how its tail is
    matched; a text that does not end in a newline is matched on its own
    when the continuation begins with a newline. *)
Lemma endsWithNewline_cons c r :
  r <> "" -> endsWithNewline (String c r) = endsWithNewline r.
Proof. destruct r; [congruence | reflexivity]. Qed.

Lemma matchColonSpace_app r s :
  startsWithNewline s = true ->
  matchColonSpace (r ++ s) = option_map (fun k => k ++ s) (matchColonSpace r).
Proof.
  intros Hs. destruct r as [|a [|b r]]; simpl.
  - destruct s as [|x [|y s]]; try reflexivity. simpl in Hs.
    apply Ascii.eqb_eq in Hs. subst x. reflexivity.
  - destruct s as [|x s]; [reflexivity|]. simpl in Hs.
    apply Ascii.eqb_eq in Hs. subst x.
    change (Ascii.eqb LF " ") with false. now rewrite andb_false_r.
  - destruct (Ascii.eqb a ":" && Ascii.eqb b " "); reflexivity.
Qed.

Lemma matchMoreNewlines_cons c s :
  matchMoreNewlines (String c s)
  = if Ascii.eqb c LF then
      match matchMoreNewlines s with
      | Some k => Some k
      | None => matchColonSpace (String c s)
      end
    else matchColonSpace (String c s).
Proof. reflexivity. Qed.

Lemma matchMoreNewlines_app r s :
  r <> "" -> endsWithNewline r = false -> startsWithNewline s = true ->
  matchMoreNewlines (r ++ s) = option_map (fun k => k ++ s) (matchMoreNewlines r).
Proof.
  intros Hne Hend Hs. induction r as [|c r IH]; [congruence|].
  destruct r as [|d r].
  - simpl in Hend. change ((String c "") ++ s) with (String c ("" ++ s)).
    cbn [matchMoreNewlines]. rewrite Hend.
    change (String c ("" ++ s)) with (String c "" ++ s).
    now apply matchColonSpace_app.
  - rewrite endsWithNewline_cons in Hend by discriminate.
    specialize (IH ltac:(discriminate) Hend).
    change (String c (String d r) ++ s) with (String c (String d r ++ s)).
    rewrite (matchMoreNewlines_cons c (String d r ++ s)),
            (matchMoreNewlines_cons c (String d r)).
    destruct (Ascii.eqb c LF) eqn:Ec.
    + rewrite IH. destruct (matchMoreNewlines (String d r)); [reflexivity|].
      apply Ascii.eqb_eq in Ec. subst c. cbn [option_map].
      rewrite !matchColonSpace_LF. reflexivity.
    + change (String c (String d r ++ s)) with (String c (String d r) ++ s).
      now apply matchColonSpace_app.
Qed.

Lemma matchDefinitionList_app pre s :
  endsWithNewline pre = false -> startsWithNewline s = true ->
  pre <> "" ->
  matchDefinitionList (pre ++ s)
  = option_map (fun k => k ++ s) (matchDefinitionList pre).
Proof.
  intros Hend Hs Hne. destruct pre as [|c r]; [congruence|].
  change (String c r ++ s) with (String c (r ++ s)).
  cbn [matchDefinitionList]. destruct (Ascii.eqb c LF) eqn:Ec; [|reflexivity].
  destruct r as [|d r]; [simpl in Hend; congruence|].
  rewrite endsWithNewline_cons in Hend by discriminate.
  apply matchMoreNewlines_app; trivial. discriminate.
Qed.

Lemma endsWithNewline_suffix x y :
  endsWithNewline (x ++ y) = false -> endsWithNewline y = false.
Proof.
  induction x as [|c x IH]; simpl; [trivial|].
  destruct (x ++ y) eqn:E.
  - destruct x; [|discriminate]. simpl in E. now subst y.
  - rewrite <- E in *. exact IH.
Qed.

Lemma matchColonSpace_suffix s k :
  matchColonSpace s = Some k -> exists x, s = x ++ k.
Proof.
  destruct s as [|a [|b s]]; simpl; try discriminate.
  destruct (_ && _); [|discriminate]. intros H. injection H as <-.
  now exists (String a (String b "")).
Qed.

Lemma matchMoreNewlines_suffix s k :
  matchMoreNewlines s = Some k -> exists x, s = x ++ k.
Proof.
  revert k. induction s as [|c s IH]; intros k; cbn [matchMoreNewlines].
  - discriminate.
  - destruct (Ascii.eqb c LF).
    + destruct (matchMoreNewlines s) as [k'|].
      * intros H. injection H as <-. destruct (IH _ eq_refl) as [x ->].
        now exists (String c x).
      * apply matchColonSpace_suffix.
    + apply matchColonSpace_suffix.
Qed.

Lemma matchDefinitionList_suffix s k :
  matchDefinitionList s = Some k -> exists x, s = x ++ k.
Proof.
  destruct s as [|c s]; simpl; [discriminate|].
  destruct (Ascii.eqb c LF); [|discriminate].
  intros H. destruct (matchMoreNewlines_suffix _ _ H) as [x ->].
  now exists (String c x).
Qed.

Lemma fix_app_bounded s :
  startsWithNewline s = true ->
  forall n pre, String.length pre <= n -> endsWithNewline pre = false ->
    fixDefinitionListSyntax (pre ++ s)
    = fixDefinitionListSyntax pre ++ fixDefinitionListSyntax s.
Proof.
  intros Hs. induction n as [|n IH]; intros [|c r] Hlen Hend; simpl in Hlen;
    try (rewrite fix_empty; reflexivity); try lia.
  pose proof (matchDefinitionList_app (String c r) s Hend Hs ltac:(discriminate))
    as Happ.
  destruct (matchDefinitionList (String c r)) as [after|] eqn:E;
    cbn [option_map] in Happ.
  - change (String c r ++ s) with (String c (r ++ s)) in *.
    rewrite (fix_match _ _ _ Happ), (fix_match _ _ _ E).
    rewrite IH.
    + now rewrite !append_assoc_aux.
    + apply matchDefinitionList_length in E. simpl in E. lia.
    + destruct (matchDefinitionList_suffix _ _ E) as [x Hx].
      rewrite Hx in Hend. now apply endsWithNewline_suffix in Hend.
  - change (String c r ++ s) with (String c (r ++ s)) in *.
    rewrite (fix_nomatch _ _ Happ), (fix_nomatch _ _ E).
    rewrite IH; [reflexivity | lia |].
    destruct r; [reflexivity|]. now rewrite endsWithNewline_cons in Hend.
Qed.

Lemma fix_app pre s :
  endsWithNewline pre = false -> startsWithNewline s = true ->
  fixDefinitionListSyntax (pre ++ s)
  = fixDefinitionListSyntax pre ++ fixDefinitionListSyntax s.
Proof.
  intros Hend Hs.
  now apply (fix_app_bounded s Hs (String.length pre) pre (Nat.le_refl _)).
Qed.

(** C8. The normalisation replaces every run of one or more newlines
    that immediately precedes [": "] by an inline [": "]: for a text
    [before] that does not itself end in a newline (so that the run is
    whole), [n+1] newlines followed by [": "] become [": "], and the
    texts before and after are normalised on their own.  A run of
    newlines that is not followed by [": "] is kept, and text without
    newlines is unchanged.  In particular "Revenue\n: $10B" and
    "Revenue\n\n: $10B" both become "Revenue: $10B", which is itself
    unchanged. *)
Theorem fixDefinitionListSyntax_collapses_runs :
  (forall before n after,
      endsWithNewline before = false ->
      fixDefinitionListSyntax (before ++ newlines (S n) ++ ": " ++ after)
      = fixDefinitionListSyntax before ++ ": " ++ fixDefinitionListSyntax after)
  /\ (forall before n after,
      endsWithNewline before = false ->
      startsWithNewline after = false -> startsWith ": " after = false ->
      fixDefinitionListSyntax (before ++ newlines (S n) ++ after)
      = fixDefinitionListSyntax before ++ newlines (S n)
          ++ fixDefinitionListSyntax after)
  /\ (forall text, hasNewline text = false -> fixDefinitionListSyntax text = text)
  /\ fixDefinitionListSyntax ("Revenue" ++ nl ++ ": $10B") = "Revenue: $10B"
  /\ fixDefinitionListSyntax ("Revenue" ++ nl ++ nl ++ ": $10B") = "Revenue: $10B"
  /\ fixDefinitionListSyntax "Revenue: $10B" = "Revenue: $10B".
Proof.
  split; [|split; [|split; [|split; [|split]]]].
  - intros before n after H. rewrite fix_app by (trivial; reflexivity).
    now rewrite fix_run.
  - intros before n after H Hnl Hp. rewrite fix_app by (trivial; reflexivity).
    now rewrite fix_kept.
  - intros text H. rewrite <- (append_nil_r_aux text) at 1.
    rewrite fix_label by assumption. rewrite fix_empty. apply append_nil_r_aux.
  - reflexivity.
  - reflexivity.
  - reflexivity.
Qed.

Lemma fixDefinitionListSyntax_collapses_runs_witness :
  endsWithNewline ("Total" ++ nl ++ ": 1" ++ nl ++ "Revenue") = false
  /\ fixDefinitionListSyntax
       (("Total" ++ nl ++ ": 1" ++ nl ++ "Revenue") ++ newlines 3 ++ ": " ++ "$10B")
     = fixDefinitionListSyntax ("Total" ++ nl ++ ": 1" ++ nl ++ "Revenue")
         ++ ": " ++ fixDefinitionListSyntax "$10B".
Proof.
  split; [reflexivity|].
  apply (proj1 fixDefinitionListSyntax_collapses_runs
           ("Total" ++ nl ++ ": 1" ++ nl ++ "Revenue") 2 "$10B").
  reflexivity.
Defined.

(** *** Idempotence *)

Lemma fix_head_space s :
  startsWith " " (fixDefinitionListSyntax s) = true -> startsWith " " s = true.
Proof.
  destruct s as [|c r]; [rewrite fix_empty; discriminate|].
  destruct (matchDefinitionList (String c r)) as [after|] eqn:E.
  - rewrite (fix_match _ _ _ E). discriminate.
  - rewrite (fix_nomatch _ _ E). simpl. trivial.
Qed.

Lemma matchMoreNewlines_fix s :
  matchMoreNewlines s = None ->
  matchMoreNewlines (fixDefinitionListSyntax s) = None.
Proof.
  induction s as [|c r IH]; [rewrite fix_empty; trivial|].
  cbn [matchMoreNewlines]. destruct (Ascii.eqb c LF) eqn:Ec.
  - destruct (matchMoreNewlines r) eqn:Er; [discriminate|]. intros _.
    rewrite fix_nomatch by (cbn [matchDefinitionList]; now rewrite Ec).
    cbn [matchMoreNewlines]. rewrite Ec, IH by reflexivity.
    apply Ascii.eqb_eq in Ec. subst c. apply matchColonSpace_LF.
  - intros H. rewrite fix_other by assumption.
    cbn [matchMoreNewlines]. rewrite Ec.
    apply matchColonSpace_prefix. apply matchColonSpace_prefix in H.
    change ": " with (String ":" " ") in *. rewrite startsWith_cons in *.
    destruct (Ascii.eqb c ":"); [|reflexivity].
    rewrite andb_true_l in *.
    destruct (startsWith " " (fixDefinitionListSyntax r)) eqn:Es; [|reflexivity].
    apply fix_head_space in Es. congruence.
Qed.

Lemma fix_idempotent_bounded n :
  forall s, String.length s <= n ->
  fixDefinitionListSyntax (fixDefinitionListSyntax s) = fixDefinitionListSyntax s.
Proof.
  induction n as [|n IH]; intros [|c r] Hlen; simpl in Hlen;
    try (rewrite !fix_empty; reflexivity); try lia.
  destruct (matchDefinitionList (String c r)) as [after|] eqn:E.
  - rewrite (fix_match _ _ _ E).
    change (": " ++ fixDefinitionListSyntax after)
      with (String ":" (String " " (fixDefinitionListSyntax after))).
    rewrite !fix_other by reflexivity.
    rewrite IH; [reflexivity|].
    apply matchDefinitionList_length in E. simpl in E. lia.
  - rewrite (fix_nomatch _ _ E).
    rewrite fix_nomatch.
    + rewrite IH by lia. reflexivity.
    + cbn [matchDefinitionList] in *. destruct (Ascii.eqb c LF); [|reflexivity].
      now apply matchMoreNewlines_fix.
Qed.

(** C10. [fixDefinitionListSyntax] is idempotent: normalising text that
    has already been normalised changes nothing. *)
Theorem fixDefinitionListSyntax_idempotent (s : string) :
  fixDefinitionListSyntax (fixDefinitionListSyntax s) = fixDefinitionListSyntax s.
Proof.
  apply (fix_idempotent_bounded (String.length s)). apply Nat.le_refl.
Qed.

(** ** Entry routing and the canned responder *)

Lemma lastMessageOf_app (l : list BaseMessage) (m : BaseMessage) :
  lastMessageOf (l ++ [m])%list = Some m.
Proof.
  unfold lastMessageOf. destruct (l ++ [m])%list eqn:E.
  - destruct l; discriminate.
  - rewrite <- E. rewrite length_app. simpl.
    replace (List.length l + 1 - 1) with (List.length l) by lia.
    rewrite nth_error_app2 by lia. now rewrite Nat.sub_diag.
Qed.

Lemma nonempty_snoc {A} (l : list A) :
  l <> [] -> exists l' x, l = (l' ++ [x])%list.
Proof.
  intros H. destruct (exists_last H) as (l' & x & ->). eauto.
Qed.

Lemma isAboutQuestion_patterns (text : string) :
  let lower := trim (toLowerCase text) in
  isAboutQuestion text = true <->
  (lower = "hi" \/ lower = "hello" \/ lower = "hey"
   \/ startsWith "what can you do" lower = true
   \/ startsWith "what do you do" lower = true
   \/ startsWith "tell me about yourself" lower = true
   \/ startsWith "who are you" lower = true
   \/ startsWith "what are you" lower = true
   \/ startsWith "help" lower = true
   \/ startsWith "how can you help" lower = true
   \/ startsWith "what are your capabilities" lower = true
   \/ startsWith "what can i ask" lower = true).
Proof.
  intros lower. unfold isAboutQuestion. fold lower.
  cbn [patterns existsb test testAlternative].
  rewrite !orb_false_r, !orb_true_iff, !String.eqb_eq. tauto.
Qed.

Lemma handleHardcodedResponse_snoc (earlier : list BaseMessage) (m : BaseMessage) :
  handleHardcodedResponse (mkState (earlier ++ [m])%list)
  = Ok (if MessageType_eqb (getType m) human
           && isAboutQuestion (contentToText (content m))
        then Some [AIMessage ABOUT_RESPONSE] else None).
Proof.
  unfold handleHardcodedResponse. cbn [messages].
  rewrite lastMessageOf_app.
  destruct (MessageType_eqb (getType m) human); cbn [negb andb]; [|reflexivity].
  destruct (isAboutQuestion _); reflexivity.
Qed.

Lemma routeInput_snoc (earlier : list BaseMessage) (m : BaseMessage) :
  routeInput (mkState (earlier ++ [m])%list)
  = Ok (if MessageType_eqb (getType m) human
           && isAboutQuestion (contentToText (content m))
        then route_hardcoded else route_agent).
Proof.
  unfold routeInput. rewrite handleHardcodedResponse_snoc.
  destruct (_ && _); reflexivity.
Qed.

Lemma getQueryFromMessages_snoc (earlier : list BaseMessage) (m : BaseMessage) :
  getType m = human ->
  getQueryFromMessages (earlier ++ [m])%list = contentToText (content m).
Proof.
  intros H. unfold getQueryFromMessages. rewrite length_app. simpl.
  replace (List.length earlier + 1) with (S (List.length earlier)) by lia.
  cbn [getQueryFrom]. rewrite nth_error_app2 by lia.
  rewrite Nat.sub_diag. simpl. now rewrite H.
Qed.

(** C9. The entry router is defined exactly on non-empty conversations:
    on the empty conversation reading the last message yields [undefined]
    and the method call on it throws; when at least one turn exists the
    router returns the canned route or the agent route. *)
Theorem routeInput_total_on_nonempty (st : MinskyState) :
  (messages st = [] ->
     handleHardcodedResponse st = Throw TypeError_undefined
     /\ routeInput st = Throw TypeError_undefined)
  /\ (messages st <> [] ->
     routeInput st = Ok route_hardcoded \/ routeInput st = Ok route_agent).
Proof.
  destruct st as [msgs]. cbn [messages]. split.
  - intros ->. split; reflexivity.
  - intros H. destruct (nonempty_snoc msgs H) as (l & m & ->).
    rewrite routeInput_snoc. destruct (_ && _); auto.
Qed.

Lemma routeInput_total_on_nonempty_witness :
  messages (mkState [HumanMessage "hello"]) <> []
  /\ (routeInput (mkState [HumanMessage "hello"]) = Ok route_hardcoded
  \/ routeInput (mkState [HumanMessage "hello"]) = Ok route_agent).
Proof.
  split; [discriminate|].
  apply (proj2 (routeInput_total_on_nonempty (mkState [HumanMessage "hello"]))).
  discriminate.
Defined.

(** C7, as the code has it.  The router decides on the last element of
    the conversation alone: the canned route is taken exactly when that
    element is a human turn whose text is a canned question, and any other
    last element sends the conversation to the agent, whatever earlier
    human turns say.  [getQueryFromMessages] is the backward scan; it
    agrees with what the router reads when the human turn is last. *)
Theorem routeInput_reads_last_turn (earlier : list BaseMessage) (m : BaseMessage) :
  routeInput (mkState (earlier ++ [m])%list)
  = Ok (if MessageType_eqb (getType m) human
           && isAboutQuestion (contentToText (content m))
        then route_hardcoded else route_agent)
  /\ (getType m <> human -> routeInput (mkState (earlier ++ [m])%list) = Ok route_agent)
  /\ (getType m = human ->
      getQueryFromMessages (earlier ++ [m])%list = contentToText (content m)).
Proof.
  split; [apply routeInput_snoc|]. split.
  - intros H. rewrite routeInput_snoc.
    destruct (getType m); try reflexivity. congruence.
  - apply getQueryFromMessages_snoc.
Qed.

Lemma routeInput_reads_last_turn_witness :
  getType (AIMessage "Hello!") <> human
  /\ routeInput (mkState ([HumanMessage "hi"] ++ [AIMessage "Hello!"])%list) = Ok route_agent.
Proof.
  split; [discriminate|].
  apply (proj1 (proj2 (routeInput_reads_last_turn [HumanMessage "hi"] (AIMessage "Hello!")))).
  discriminate.
Defined.

(** C7 as stated fails: here the latest human turn, found by the backward
    scan, is the canned question "hi", an assistant turn follows it, and
    the router takes the agent route. *)
Lemma routeInput_ignores_earlier_human_turn :
  ~ (forall msgs : list BaseMessage,
       isAboutQuestion (getQueryFromMessages msgs) = true ->
       routeInput (mkState msgs) = Ok route_hardcoded).
Proof.
  intros H. specialize (H [HumanMessage "hi"; AIMessage "Hello!"] eq_refl).
  discriminate H.
Qed.

(** ** The control loop *)

Section GraphFacts.

Variable AGENT_SYSTEM_PROMPT : string.
Variable collab : Collaborators.

Local Abbreviation step := (step AGENT_SYSTEM_PROMPT collab).
Local Abbreviation run := (run AGENT_SYSTEM_PROMPT collab).
Local Abbreviation callModel := (callModel AGENT_SYSTEM_PROMPT collab).
Local Abbreviation systemMessage := (systemMessage AGENT_SYSTEM_PROMPT).

Lemma run_END fuel p s : node s = END -> run fuel p s = Finished p s.
Proof. intros H. destruct fuel; simpl; now rewrite H. Qed.

Lemma run_step fuel p s p' s' :
  node s <> END -> step s p = (Ok s', p') ->
  run (S fuel) p s = run fuel p' s'.
Proof.
  intros Hn Hs. simpl. rewrite Hs.
  destruct (node s); try reflexivity. congruence.
Qed.

Lemma tool_calls_fixResponseContent r :
  tool_calls (responseMessage (fixResponseContent r)) = response_tool_calls r.
Proof.
  unfold fixResponseContent. destruct r as [[s|j] tcs]; simpl; [|reflexivity].
  destruct (String.eqb s ""); reflexivity.
Qed.

(** Each call of the reasoning client appends its output and adds one
    to the iteration counter. *)
Lemma callModel_ok calls st p r :
  respond collab calls (systemMessage :: messages st) = Ok r ->
  callModel calls st p
  = (Ok [responseMessage (fixResponseContent r)],
     mkProcess (S (iterationCount p)) (console p)).
Proof.
  intros H. unfold callModel, bind, lift, getIterationCount, setIterationCount, ret.
  rewrite H. cbn. now rewrite Nat.add_1_r.
Qed.

Lemma callModel_throw calls st p e :
  respond collab calls (systemMessage :: messages st) = Throw e ->
  callModel calls st p = (Throw e, p).
Proof.
  intros H. unfold callModel, bind, lift. now rewrite H.
Qed.

Lemma routeModelOutput_ceiling st p :
  MAX_ITERATIONS <= iterationCount p ->
  routeModelOutput st p
  = (Ok route_end, mkProcess 0 (console p ++ [ceilingWarning])).
Proof.
  intros H. unfold routeModelOutput, bind, getIterationCount.
  apply Nat.leb_le in H. rewrite H. reflexivity.
Qed.

Lemma routeModelOutput_tools earlier m p :
  iterationCount p < MAX_ITERATIONS ->
  getType m = ai -> tool_calls m <> [] ->
  routeModelOutput (mkState (earlier ++ [m])) p = (Ok route_tools, p).
Proof.
  intros H Hai Htc. unfold routeModelOutput, bind, getIterationCount.
  apply Nat.leb_gt in H. rewrite H. cbn [messages].
  rewrite lastMessageOf_app, Hai. unfold hasToolCalls.
  destruct (tool_calls m); [congruence|reflexivity].
Qed.

Lemma routeModelOutput_natural earlier m p :
  iterationCount p < MAX_ITERATIONS ->
  getType m <> ai \/ tool_calls m = [] ->
  routeModelOutput (mkState (earlier ++ [m])) p
  = (Ok route_end, mkProcess 0 (console p)).
Proof.
  intros H Hm. unfold routeModelOutput, bind, getIterationCount.
  apply Nat.leb_gt in H. rewrite H. cbn [messages].
  rewrite lastMessageOf_app. unfold hasToolCalls.
  destruct Hm as [Hm|Hm].
  - destruct (getType m); try reflexivity. congruence.
  - rewrite Hm, andb_false_r. reflexivity.
Qed.

(** Whenever [routeModelOutput] sends the run to [END], naturally or by
    the ceiling, it has reset the counter. *)
Lemma routeModelOutput_end_resets st p p' :
  routeModelOutput st p = (Ok route_end, p') -> iterationCount p' = 0.
Proof.
  unfold routeModelOutput, bind, getIterationCount.
  destruct (Nat.leb MAX_ITERATIONS (iterationCount p)).
  - intros H. injection H as <-. reflexivity.
  - destruct (lastMessageOf (messages st)) as [m|]; [|discriminate].
    destruct (_ && _); [discriminate|].
    intros H. injection H as <-. reflexivity.
Qed.

Lemma announceToolCalls_requests earlier m :
  getType m = ai -> tool_calls m <> [] ->
  announceToolCalls (mkState (earlier ++ [m])) = Ok [AIMessage announcement].
Proof.
  intros Hai Htc. unfold announceToolCalls. cbn [messages].
  rewrite lastMessageOf_app, Hai. cbn.
  destruct (tool_calls m); [congruence|reflexivity].
Qed.

(** The canned path from [START], whatever the counter holds. *)
Lemma run_canned fuel p earlier m :
  getType m = human ->
  isAboutQuestion (contentToText (content m)) = true ->
  run (S (S fuel)) p (startSession (earlier ++ [m]))
  = Finished p (mkSession END
                  (mkState ((earlier ++ [m]) ++ [AIMessage ABOUT_RESPONSE]))
                  0 [hardcoded]).
Proof.
  intros Hh Hq.
  assert (Hr : routeInput (mkState (earlier ++ [m])) = Ok route_hardcoded).
  { rewrite routeInput_snoc, Hh, Hq. reflexivity. }
  assert (Hu : returnHardcodedResponse (mkState (earlier ++ [m]))
               = Ok [AIMessage ABOUT_RESPONSE]).
  { unfold returnHardcodedResponse. rewrite handleHardcodedResponse_snoc, Hh, Hq.
    reflexivity. }
  erewrite run_step; [| discriminate |].
  2:{ unfold step, startSession, bind, lift, ret. cbn [node state].
      rewrite Hr. reflexivity. }
  erewrite run_step; [| discriminate |].
  2:{ unfold step, bind, lift, ret. cbn [node state].
      rewrite Hu. reflexivity. }
  apply run_END. reflexivity.
Qed.

(** The reasoning step when the ceiling is not yet reached and the
    client asks for tools: on to [announce], counter plus one. *)
Lemma step_agent_tools earlier calls vis p r :
  respond collab calls (systemMessage :: earlier) = Ok r ->
  response_tool_calls r <> [] ->
  S (iterationCount p) < MAX_ITERATIONS ->
  step (mkSession agent (mkState earlier) calls vis) p
  = (Ok (mkSession announce
           (mkState (earlier ++ [responseMessage (fixResponseContent r)]))
           (S calls) (vis ++ [agent])),
     mkProcess (S (iterationCount p)) (console p)).
Proof.
  intros Hr Htc Hlt. unfold step. cbn [node state reasoningCalls visited].
  unfold bind at 1. rewrite (callModel_ok calls (mkState earlier) p r Hr).
  unfold messagesStateReducer. cbn [messages state reasoningCalls visited].
  unfold bind. rewrite routeModelOutput_tools; trivial.
  now rewrite tool_calls_fixResponseContent.
Qed.

(** The reasoning step that reaches the ceiling: warn, reset, stop. *)
Lemma step_agent_ceiling earlier calls vis p r :
  respond collab calls (systemMessage :: earlier) = Ok r ->
  MAX_ITERATIONS <= S (iterationCount p) ->
  step (mkSession agent (mkState earlier) calls vis) p
  = (Ok (mkSession END
           (mkState (earlier ++ [responseMessage (fixResponseContent r)]))
           (S calls) (vis ++ [agent])),
     mkProcess 0 (console p ++ [ceilingWarning])).
Proof.
  intros Hr Hge. unfold step. cbn [node state reasoningCalls visited].
  unfold bind at 1. rewrite (callModel_ok calls (mkState earlier) p r Hr).
  unfold messagesStateReducer. cbn [messages state reasoningCalls visited].
  unfold bind. rewrite routeModelOutput_ceiling; trivial.
Qed.

(** The reasoning step with a terminal answer below the ceiling. *)
Lemma step_agent_natural earlier calls vis p r :
  respond collab calls (systemMessage :: earlier) = Ok r ->
  response_tool_calls r = [] ->
  S (iterationCount p) < MAX_ITERATIONS ->
  step (mkSession agent (mkState earlier) calls vis) p
  = (Ok (mkSession END
           (mkState (earlier ++ [responseMessage (fixResponseContent r)]))
           (S calls) (vis ++ [agent])),
     mkProcess 0 (console p)).
Proof.
  intros Hr Htc Hlt. unfold step. cbn [node state reasoningCalls visited].
  unfold bind at 1. rewrite (callModel_ok calls (mkState earlier) p r Hr).
  unfold messagesStateReducer. cbn [messages state reasoningCalls visited].
  unfold bind. rewrite routeModelOutput_natural; trivial.
  right. now rewrite tool_calls_fixResponseContent.
Qed.

Lemma step_announce earlier m calls vis p :
  getType m = ai -> tool_calls m <> [] ->
  step (mkSession announce (mkState (earlier ++ [m])) calls vis) p
  = (Ok (mkSession tools (mkState ((earlier ++ [m]) ++ [AIMessage announcement]))
           calls (vis ++ [announce])), p).
Proof.
  intros Hai Htc. unfold step, bind, lift, ret, leave.
  cbn [node state reasoningCalls visited].
  rewrite announceToolCalls_requests; trivial.
Qed.

Lemma run_cycle fuel earlier m calls vis p :
  getType m = ai -> tool_calls m <> [] ->
  run (S (S (S fuel))) p (mkSession announce (mkState (earlier ++ [m])) calls vis)
  = run fuel p (mkSession agent (mkState (afterCycle collab earlier m)) calls
                  (vis ++ [announce; tools; progress])).
Proof.
  intros Hai Htc.
  erewrite run_step; [| discriminate | now apply step_announce].
  erewrite run_step; [| discriminate | reflexivity].
  erewrite run_step; [| discriminate | reflexivity].
  unfold leave, messagesStateReducer, afterCycle.
  cbn [node state reasoningCalls visited messages].
  rewrite <- !app_assoc. reflexivity.
Qed.

(** From the reasoning node with [S k] iterations left below the
    ceiling, a client that always asks for tools is called [S k] more
    times; the last call trips the ceiling. *)
Lemma run_to_ceiling :
  alwaysRequestsTools collab ->
  forall k p earlier calls vis,
    iterationCount p + S k = MAX_ITERATIONS ->
    exists pre r vis',
      (forall fuel, 4 * k + 1 <= fuel ->
         run fuel p (mkSession agent (mkState earlier) calls vis)
         = Finished (mkProcess 0 (console p ++ [ceilingWarning]))
             (mkSession END
                (mkState (pre ++ [responseMessage (fixResponseContent r)]))
                (calls + S k) vis'))
      /\ respond collab (calls + k) (systemMessage :: pre) = Ok r
      /\ response_tool_calls r <> []
      /\ count_occ Node_eq_dec vis' agent = count_occ Node_eq_dec vis agent + S k
      /\ count_occ Node_eq_dec vis' hardcoded = count_occ Node_eq_dec vis hardcoded.
Proof.
  intros Htools. induction k as [|k IH]; intros p earlier calls vis Hk.
  - destruct (Htools calls (systemMessage :: earlier)) as (r & Hr & Htc).
    exists earlier, r, (vis ++ [agent])%list. repeat split.
    + intros fuel Hf. destruct fuel as [|fuel]; [lia|].
      erewrite run_step; [| discriminate | apply step_agent_ceiling; [eassumption | lia]].
      rewrite run_END by reflexivity. now rewrite Nat.add_1_r.
    + now rewrite Nat.add_0_r.
    + assumption.
    + rewrite count_occ_app. simpl. reflexivity.
    + rewrite count_occ_app. simpl. lia.
  - destruct (Htools calls (systemMessage :: earlier)) as (r & Hr & Htc).
    set (m := responseMessage (fixResponseContent r)).
    destruct (IH (mkProcess (S (iterationCount p)) (console p))
                 (afterCycle collab earlier m) (S calls)
                 ((vis ++ [agent]) ++ [announce; tools; progress])%list)
      as (pre & r' & vis' & Hrun & Hr' & Htc' & Hag & Hhc).
    { cbn [iterationCount]. lia. }
    exists pre, r', vis'. repeat split.
    + intros fuel Hf.
      destruct fuel as [|[|[|[|fuel]]]]; try lia.
      erewrite run_step; [| discriminate | apply step_agent_tools; [eassumption | assumption | lia]].
      fold m. rewrite run_cycle;
        [| reflexivity | unfold m; now rewrite tool_calls_fixResponseContent].
      rewrite Hrun by lia. cbn [console].
      replace (S calls + S k) with (calls + S (S k)) by lia. reflexivity.
    + replace (calls + S k) with (S calls + k) by lia. assumption.
    + assumption.
    + rewrite Hag, !count_occ_app. simpl. lia.
    + rewrite Hhc, !count_occ_app. simpl. lia.
Qed.

(** A transition inside the loop stays inside the loop, unless it is
    the exit of the reasoning node, which has reset the counter. *)
Lemma step_in_loop s p s' p' :
  inLoop (node s) -> step s p = (Ok s', p') ->
  inLoop (node s') \/ (node s' = END /\ iterationCount p' = 0).
Proof.
  unfold inLoop. intros Hn Hs. unfold step in Hs.
  destruct (node s) eqn:En; try (destruct Hn as [?|[?|[?|?]]]; discriminate).
  - unfold bind at 1 in Hs.
    destruct (callModel (reasoningCalls s) (state s) p) as [[upd|e] p1];
      [|discriminate].
    unfold bind in Hs.
    destruct (routeModelOutput _ p1) as [[[]|e] p2] eqn:Er; try discriminate;
      unfold ret in Hs; injection Hs as <- <-; cbn [node].
    + right. split; [reflexivity|]. eapply routeModelOutput_end_resets; eauto.
    + left. tauto.
  - unfold bind, lift, ret in Hs.
    destruct (announceToolCalls (state s)); [|discriminate].
    injection Hs as <- <-. left. cbn. tauto.
  - unfold ret in Hs. injection Hs as <- <-. left. cbn. tauto.
  - unfold ret in Hs. injection Hs as <- <-. left. cbn. tauto.
Qed.

Lemma run_in_loop_resets fuel :
  forall p s p' s',
    inLoop (node s) -> run fuel p s = Finished p' s' -> iterationCount p' = 0.
Proof.
  induction fuel as [|fuel IH]; intros p s p' s' Hn Hrun.
  - simpl in Hrun. destruct Hn as [H|[H|[H|H]]]; rewrite H in Hrun; discriminate.
  - simpl in Hrun.
    assert (Hne : Node_eqb (node s) END = false)
      by (destruct Hn as [H|[H|[H|H]]]; rewrite H; reflexivity).
    rewrite Hne in Hrun.
    destruct (step s p) as [[s1|e] p1] eqn:Es; [|discriminate].
    destruct (step_in_loop _ _ _ _ Hn Es) as [Hl|[He H0]].
    + eapply IH; eauto.
    + rewrite run_END in Hrun by assumption. now injection Hrun as <- <-.
Qed.

Lemma routeInput_hardcoded_inv msgs :
  routeInput (mkState msgs) = Ok route_hardcoded ->
  exists earlier m, msgs = (earlier ++ [m])%list /\ getType m = human
                    /\ isAboutQuestion (contentToText (content m)) = true.
Proof.
  intros H. destruct msgs as [|m0 l]; [discriminate|].
  destruct (nonempty_snoc (m0 :: l)) as (earlier & m & E); [discriminate|].
  rewrite E in *. exists earlier, m. rewrite routeInput_snoc in H.
  destruct (getType m); try discriminate.
  destruct (isAboutQuestion _); try discriminate. auto.
Qed.

(** C1. With the counter at zero, a conversation that is not a canned
    question and a reasoning client that asks for tools on every call:
    whatever the tool node returns, the loop calls the client exactly
    [MAX_ITERATIONS] (20) times and then stops by the ceiling.  It
    prints the warning, leaves the counter at zero, and the
    conversation ends with the output of the last call, which still
    asks for tools: nothing is appended after it. *)
Theorem ceiling_forces_termination (msgs : list BaseMessage) (log : list string) :
  alwaysRequestsTools collab ->
  routeInput (mkState msgs) = Ok route_agent ->
  exists pre r vis,
    (forall fuel, 4 * MAX_ITERATIONS <= fuel ->
       run fuel (mkProcess 0 log) (startSession msgs)
       = Finished (mkProcess 0 (log ++ [ceilingWarning]))
           (mkSession END
              (mkState (pre ++ [responseMessage (fixResponseContent r)]))
              MAX_ITERATIONS vis))
    /\ respond collab (MAX_ITERATIONS - 1) (systemMessage :: pre) = Ok r
    /\ response_tool_calls r <> []
    /\ count_occ Node_eq_dec vis agent = MAX_ITERATIONS
    /\ count_occ Node_eq_dec vis hardcoded = 0.
Proof.
  intros Htools Hroute.
  destruct (run_to_ceiling Htools (MAX_ITERATIONS - 1) (mkProcess 0 log) msgs 0 [])
    as (pre & r & vis & Hrun & Hr & Htc & Hag & Hhc); [reflexivity|].
  exists pre, r, vis. repeat split; try assumption.
  intros fuel Hf. destruct fuel as [|fuel]; [unfold MAX_ITERATIONS in Hf; lia|].
  erewrite run_step; [| discriminate |].
  2:{ unfold step, startSession, bind, lift, ret. cbn [node state].
      rewrite Hroute. reflexivity. }
  cbn [reasoningCalls visited]. apply Hrun.
  unfold MAX_ITERATIONS in *. lia.
Qed.

(** C2, as the code has it.  A human turn whose text, lowercased and
    trimmed, is "hi", "hello" or "hey", or begins with one of the nine
    capability questions: whatever the process holds, the loop reaches
    [END] after executing the single node [hardcoded], having appended
    exactly one assistant turn whose content is [ABOUT_RESPONSE]; the
    reasoning client is not called, the tool node is not run, nothing is
    printed, and the counter is exactly what it was at the start, zero
    when it was zero. *)
Theorem canned_question_answered_in_one_step
  (earlier : list BaseMessage) (m : BaseMessage) (p : Process) (fuel : nat) :
  getType m = human ->
  (let lower := trim (toLowerCase (contentToText (content m))) in
   lower = "hi" \/ lower = "hello" \/ lower = "hey"
   \/ startsWith "what can you do" lower = true
   \/ startsWith "what do you do" lower = true
   \/ startsWith "tell me about yourself" lower = true
   \/ startsWith "who are you" lower = true
   \/ startsWith "what are you" lower = true
   \/ startsWith "help" lower = true
   \/ startsWith "how can you help" lower = true
   \/ startsWith "what are your capabilities" lower = true
   \/ startsWith "what can i ask" lower = true) ->
  2 <= fuel ->
  run fuel p (startSession (earlier ++ [m]))
  = Finished p
      (mkSession END
         (mkState ((earlier ++ [m]) ++ [AIMessage ABOUT_RESPONSE]))
         0 [hardcoded]).
Proof.
  intros Hh Hq Hf. apply isAboutQuestion_patterns in Hq.
  destruct fuel as [|[|fuel]]; try lia.
  now apply run_canned.
Qed.

(** C3, as the code has it.  Every call of the reasoning client adds
    exactly one to the counter.  Both exits of the reasoning node, the
    natural one and the one forced by the ceiling, reset the counter,
    so a run that went through the reasoning node ends with the counter
    at zero.  The canned exit does not write the counter: it ends with
    the counter it started with. *)
Theorem counter_reset_on_reasoning_exits :
  (forall calls st p update p',
      callModel calls st p = (Ok update, p') ->
      iterationCount p' = S (iterationCount p))
  /\ (forall st p p',
      routeModelOutput st p = (Ok route_end, p') -> iterationCount p' = 0)
  /\ (forall fuel p msgs p' s',
      routeInput (mkState msgs) = Ok route_agent ->
      run fuel p (startSession msgs) = Finished p' s' ->
      iterationCount p' = 0)
  /\ (forall fuel p msgs p' s',
      routeInput (mkState msgs) = Ok route_hardcoded ->
      run fuel p (startSession msgs) = Finished p' s' ->
      p' = p /\ reasoningCalls s' = 0 /\ visited s' = [hardcoded]).
Proof.
  split; [|split; [|split]].
  - intros calls st p update p' H.
    destruct (respond collab calls (systemMessage :: messages st)) as [r|e] eqn:E.
    + rewrite (callModel_ok calls st p r E) in H. now injection H as _ <-.
    + rewrite (callModel_throw calls st p e E) in H. discriminate.
  - apply routeModelOutput_end_resets.
  - intros fuel p msgs p' s' Hroute Hrun.
    destruct fuel as [|fuel]; [discriminate|].
    erewrite run_step in Hrun; [| discriminate |].
    2:{ unfold step, startSession, bind, lift, ret. cbn [node state].
        rewrite Hroute. reflexivity. }
    eapply run_in_loop_resets; [|eassumption]. left. reflexivity.
  - intros fuel p msgs p' s' Hroute Hrun.
    destruct (routeInput_hardcoded_inv _ Hroute) as (earlier & m & -> & Hh & Hq).
    destruct fuel as [|[|fuel]].
    + discriminate.
    + erewrite run_step in Hrun; [| discriminate |].
      2:{ unfold step, startSession, bind, lift, ret. cbn [node state].
          rewrite Hroute. reflexivity. }
      discriminate.
    + rewrite run_canned in Hrun by assumption.
      injection Hrun as <- <-. auto.
Qed.

End GraphFacts.

(** ** The tool cycle *)

(** Equal up to the bracketing of appends. *)
Ltac list_eq :=
  repeat (rewrite <- app_assoc || rewrite <- app_comm_cons); cbn [app];
  repeat (rewrite <- app_assoc || rewrite <- app_comm_cons); reflexivity.

Lemma latestRequests_last_assistant earlier a :
  getType a = ai -> latestRequests (earlier ++ [a]) = tool_calls a.
Proof.
  intros Ha. unfold latestRequests. rewrite rev_app_distr. cbn [rev app find].
  now rewrite Ha.
Qed.

(** At the tools node the most recent assistant turn is the announcement,
    which carries no request. *)
Lemma ToolNode_after_announcement registry earlier :
  ToolNode registry (mkState (earlier ++ [AIMessage announcement])) = [].
Proof.
  unfold ToolNode. cbn [messages].
  now rewrite latestRequests_last_assistant.
Qed.

Lemma summarizeToolResults_last_assistant earlier a :
  getType a = ai -> summarizeToolResults (mkState (earlier ++ [a])) = [].
Proof.
  intros Ha. unfold summarizeToolResults. cbn [messages].
  rewrite length_app. simpl. rewrite Nat.add_1_r. cbn [collectToolMessages].
  rewrite nth_error_app2 by lia. rewrite Nat.sub_diag. cbn [nth_error].
  now rewrite Ha.
Qed.

Lemma afterCycle_ToolNode respond registry earlier m :
  afterCycle (mkCollaborators respond (ToolNode registry)) earlier m
  = (earlier ++ [m; AIMessage announcement])%list.
Proof.
  unfold afterCycle. cbn [toolNode].
  rewrite ToolNode_after_announcement, app_nil_r.
  rewrite summarizeToolResults_last_assistant by reflexivity.
  rewrite app_nil_r. list_eq.
Qed.

(** The run of a client that asks for tools once and then answers. *)
Lemma run_request_then_answer
  (prompt : string) (respond : nat -> list BaseMessage -> Outcome ModelResponse)
  (registry : list StructuredTool) (earlier : list BaseMessage) (h : BaseMessage)
  (log : list string) (r1 r2 : ModelResponse) (fuel : nat) :
  let collab := mkCollaborators respond (ToolNode registry) in
  let msgs := (earlier ++ [h])%list in
  let announced := (msgs ++ [responseMessage (fixResponseContent r1);
                             AIMessage announcement])%list in
  getType h = human ->
  isAboutQuestion (contentToText (content h)) = false ->
  respond 0 (systemMessage prompt :: msgs) = Ok r1 ->
  response_tool_calls r1 <> [] ->
  respond 1 (systemMessage prompt :: announced) = Ok r2 ->
  response_tool_calls r2 = [] ->
  6 <= fuel ->
  run prompt collab fuel (mkProcess 0 log) (startSession msgs)
  = Finished (mkProcess 0 log)
      (mkSession END
         (mkState (announced ++ [responseMessage (fixResponseContent r2)]))
         2 [agent; announce; tools; progress; agent]).
Proof.
  intros collab msgs announced Hh Hq Hr1 Htc1 Hr2 Htc2 Hf.
  destruct fuel as [|[|[|[|[|[|fuel]]]]]]; try lia.
  assert (Hroute : routeInput (mkState msgs) = Ok route_agent).
  { unfold msgs. rewrite routeInput_snoc, Hh, Hq. reflexivity. }
  set (m1 := responseMessage (fixResponseContent r1)).
  erewrite run_step; [| discriminate |].
  2:{ unfold step, startSession, bind, lift, ret. cbn [node state].
      rewrite Hroute. reflexivity. }
  cbn [reasoningCalls visited].
  erewrite run_step; [| discriminate |].
  2:{ apply step_agent_tools with (r := r1); [exact Hr1 | exact Htc1 |].
      cbn. unfold MAX_ITERATIONS. lia. }
  fold m1. rewrite run_cycle;
    [| reflexivity | unfold m1; now rewrite tool_calls_fixResponseContent].
  unfold collab. rewrite afterCycle_ToolNode. fold collab.
  erewrite run_step; [| discriminate |].
  2:{ apply step_agent_natural with (r := r2); [exact Hr2 | exact Htc2 |].
      cbn. unfold MAX_ITERATIONS. lia. }
  rewrite run_END by reflexivity. reflexivity.
Qed.

(** C6 on the code.  At the tools node the conversation always ends with
    the announcement that [announceToolCalls] has just appended; that is
    the most recent assistant turn, and it carries no request.  The tool
    node therefore dispatches nothing, [summarizeToolResults] finds no
    tool result, and a run whose client asks for a tool and then answers
    appends three turns, the request, the announcement and the answer:
    the tool-result turn and the observe-status turn of the claim are
    missing.  The client is called twice and the counter is zero at the
    end, as the claim says. *)
Theorem tool_request_is_not_dispatched :
  (forall registry earlier,
      ToolNode registry (mkState (earlier ++ [AIMessage announcement])) = []
      /\ summarizeToolResults (mkState (earlier ++ [AIMessage announcement])) = [])
  /\ (forall prompt respond registry earlier h log r1 r2 fuel,
        let msgs := (earlier ++ [h])%list in
        let announced := (msgs ++ [responseMessage (fixResponseContent r1);
                                   AIMessage announcement])%list in
        getType h = human ->
        isAboutQuestion (contentToText (content h)) = false ->
        respond 0 (systemMessage prompt :: msgs) = Ok r1 ->
        response_tool_calls r1 <> [] ->
        respond 1 (systemMessage prompt :: announced) = Ok r2 ->
        response_tool_calls r2 = [] ->
        6 <= fuel ->
        run prompt (mkCollaborators respond (ToolNode registry)) fuel
            (mkProcess 0 log) (startSession msgs)
        = Finished (mkProcess 0 log)
            (mkSession END
               (mkState (announced ++ [responseMessage (fixResponseContent r2)]))
               2 [agent; announce; tools; progress; agent]))
  /\ run Scenario.prompt Scenario.requestThenAnswer 6 (mkProcess 0 [])
         (startSession [Scenario.question])
     = Finished (mkProcess 0 [])
         (mkSession END
            (mkState [Scenario.question;
                      responseMessage Scenario.toolRequest;
                      AIMessage announcement;
                      responseMessage Scenario.answer])
            2 [agent; announce; tools; progress; agent]).
Proof.
  split; [|split].
  - intros registry earlier. split.
    + apply ToolNode_after_announcement.
    + now apply summarizeToolResults_last_assistant.
  - intros. now apply run_request_then_answer.
  - vm_compute. reflexivity.
Qed.

(** ** The search tool *)

Section SearchTool.

Import Perplexity.

Variable env : Environment.



Lemma callPerplexityApi_no_key q f :
  PERPLEXITY_API_KEY env = None \/ PERPLEXITY_API_KEY env = Some "" ->
  callPerplexityApi env q f = Throw (ErrorObject missingKeyMessage).
Proof.
  unfold callPerplexityApi. intros [-> | ->]; reflexivity.
Qed.









End SearchTool.

(** ** Concrete runs *)

Lemma alwaysRequest_requests : alwaysRequestsTools Scenario.alwaysRequest.
Proof.
  intros calls transcript. exists Scenario.toolRequest.
  split; [reflexivity | discriminate].
Defined.

Lemma ceiling_forces_termination_witness :
  alwaysRequestsTools Scenario.alwaysRequest
  /\ routeInput (mkState [Scenario.question]) = Ok route_agent
  /\ exists pre r vis,
    (forall fuel, 4 * MAX_ITERATIONS <= fuel ->
       run Scenario.prompt Scenario.alwaysRequest fuel (mkProcess 0 [])
           (startSession [Scenario.question])
       = Finished (mkProcess 0 ([] ++ [ceilingWarning]))
           (mkSession END
              (mkState (pre ++ [responseMessage (fixResponseContent r)]))
              MAX_ITERATIONS vis))
    /\ respond Scenario.alwaysRequest (MAX_ITERATIONS - 1)
         (systemMessage Scenario.prompt :: pre) = Ok r
    /\ response_tool_calls r <> []
    /\ count_occ Node_eq_dec vis agent = MAX_ITERATIONS
    /\ count_occ Node_eq_dec vis hardcoded = 0.
Proof.
  split; [exact alwaysRequest_requests|]. split; [reflexivity|].
  apply (ceiling_forces_termination Scenario.prompt Scenario.alwaysRequest
           [Scenario.question] []).
  - exact alwaysRequest_requests.
  - reflexivity.
Defined.

Lemma canned_question_answered_in_one_step_witness :
  startsWith "what can you do"
    (trim (toLowerCase (bytes [194; 160] ++ " What can YOU do?  "))) = true
  /\ run Scenario.prompt Scenario.alwaysRequest 2 (mkProcess 0 [])
      (startSession ([Scenario.question]
                       ++ [HumanMessage (bytes [194; 160] ++ " What can YOU do?  ")]))
  = Finished (mkProcess 0 [])
      (mkSession END
         (mkState (([Scenario.question]
                      ++ [HumanMessage (bytes [194; 160] ++ " What can YOU do?  ")])
                     ++ [AIMessage ABOUT_RESPONSE]))
         0 [hardcoded]).
Proof.
  split; [reflexivity|].
  apply (canned_question_answered_in_one_step Scenario.prompt Scenario.alwaysRequest
           [Scenario.question]
           (HumanMessage (bytes [194; 160] ++ " What can YOU do?  "))
           (mkProcess 0 []) 2).
  - reflexivity.
  - cbv zeta. do 3 right. left. reflexivity.
  - apply Nat.le_refl.
Defined.

(** C2 as stated fails when the counter is not zero at the start.  A
    first session has made one reasoning call and stands before its
    tool cycle; a second session of the same process then receives the
    canned question "What can you do?".  It reaches [END] through the
    single node [hardcoded] with the capability document appended, and
    the counter is one, not zero. *)
Lemma canned_question_beside_a_running_session :
  exists p a b,
    trim (toLowerCase "What can you do?") = "what can you do?"
    /\ runSchedule Scenario.prompt Scenario.alwaysRequest Scenario.alwaysRequest
         [sessionA; sessionA; sessionB; sessionB]
         (mkProcess 0 []) (startSession [Scenario.question])
         (startSession [HumanMessage "What can you do?"]) = (p, a, b)
    /\ node a = announce
    /\ node b = END
    /\ visited b = [hardcoded]
    /\ messages (state b)
       = [HumanMessage "What can you do?"; AIMessage ABOUT_RESPONSE]
    /\ reasoningCalls b = 0
    /\ iterationCount p = 1
    /\ iterationCount p <> 0.
Proof.
  do 3 eexists. split; [reflexivity|].
  split; [vm_compute; reflexivity|].
  repeat split. discriminate.
Qed.

Lemma counter_reset_on_reasoning_exits_witness :
  exists p' s',
    routeInput (mkState [Scenario.question]) = Ok route_agent
    /\ run Scenario.prompt Scenario.requestThenAnswer 6 (mkProcess 7 [])
           (startSession [Scenario.question]) = Finished p' s'
    /\ iterationCount p' = 0.
Proof.
  do 2 eexists. split; [reflexivity|].
  assert (H : run Scenario.prompt Scenario.requestThenAnswer 6 (mkProcess 7 [])
                  (startSession [Scenario.question])
              = Finished (mkProcess 0 [])
                  (mkSession END
                     (mkState
                        [Scenario.question;
                         responseMessage Scenario.toolRequest;
                         AIMessage announcement;
                         responseMessage Scenario.answer])
                     2 [agent; announce; tools; progress; agent]))
    by (vm_compute; reflexivity).
  split; [exact H|].
  exact (proj1 (proj2 (proj2
           (counter_reset_on_reasoning_exits Scenario.prompt
              Scenario.requestThenAnswer)))
           6 (mkProcess 7 []) [Scenario.question] _ _ eq_refl H).
Defined.

(** C3 as stated fails on the canned exit.  A first run is cut short by a
    failing call of the reasoning client and leaves the counter at one;
    the next conversation in the process is the canned question "hello",
    and it reaches [END] with the counter still at one. *)
Lemma canned_exit_keeps_leftover_count :
  exists e p1 s1 s2,
    run Scenario.prompt Scenario.requestThenFail 6 (mkProcess 0 [])
        (startSession [Scenario.question]) = Aborted e p1 s1
    /\ run Scenario.prompt Scenario.requestThenAnswer 6 p1
           (startSession [HumanMessage "hello"]) = Finished p1 s2
    /\ node s2 = END
    /\ visited s2 = [hardcoded]
    /\ iterationCount p1 = 1
    /\ iterationCount p1 <> 0.
Proof.
  do 4 eexists. split; [vm_compute; reflexivity|].
  split; [vm_compute; reflexivity|].
  repeat split. discriminate.
Qed.

Lemma tool_request_is_not_dispatched_witness :
  isAboutQuestion "What are NVIDIA's tail risks?" = false
  /\ run Scenario.prompt Scenario.requestThenAnswer 7 (mkProcess 0 ["earlier warning"])
      (startSession [Scenario.question])
  = Finished (mkProcess 0 ["earlier warning"])
      (mkSession END
         (mkState
            (([] ++ [Scenario.question])
               ++ [responseMessage (fixResponseContent Scenario.toolRequest);
                   AIMessage announcement]
               ++ [responseMessage (fixResponseContent Scenario.answer)]))
         2 [agent; announce; tools; progress; agent]).
Proof.
  split; [reflexivity|].
  apply (proj1 (proj2 tool_request_is_not_dispatched) Scenario.prompt
           (respond Scenario.requestThenAnswer)
           (LANGCHAIN_TOOLS Scenario.noCredentials)
           [] Scenario.question ["earlier warning"]
           Scenario.toolRequest Scenario.answer 7).
  - reflexivity.
  - reflexivity.
  - reflexivity.
  - discriminate.
  - reflexivity.
  - reflexivity.
  - repeat constructor.
Defined.


(** ** Two sessions in one process *)

(** C4 on the code.  Alone, the second session asks for one search and
    then answers: two calls of its client.  Interleaved with a first
    session that has used nineteen iterations, the second session's first
    call brings the shared counter to the ceiling: it is stopped after one
    call, its conversation ending in the unanswered tool request.  The
    reset it causes hands the first session a fresh budget: the first
    session ends after thirty-nine calls, more than [MAX_ITERATIONS]. *)
Theorem interleaved_sessions_share_the_counter :
  (exists s,
      run Scenario.prompt Scenario.requestThenAnswer 6 (mkProcess 0 [])
          (startSession [Scenario.question]) = Finished (mkProcess 0 []) s
      /\ reasoningCalls s = 2
      /\ option_map hasToolCalls (lastMessageOf (messages (state s))) = Some false)
  /\ (exists p a b,
      runSchedule Scenario.prompt Scenario.alwaysRequest Scenario.requestThenAnswer
        (repeat sessionA 77 ++ [sessionB; sessionB] ++ repeat sessionA 77)
        (mkProcess 0 []) (startSession [Scenario.question])
        (startSession [Scenario.question]) = (p, a, b)
      /\ node b = END
      /\ reasoningCalls b = 1
      /\ option_map hasToolCalls (lastMessageOf (messages (state b))) = Some true
      /\ node a = END
      /\ reasoningCalls a = 39
      /\ MAX_ITERATIONS < reasoningCalls a).
Proof.
  split.
  - eexists. split; [vm_compute; reflexivity|]. split; reflexivity.
  - do 3 eexists. split; [vm_compute; reflexivity|].
    repeat split. vm_compute. lia.
Qed.

(** * Further properties of the sources *)

(** ** [fixDefinitionListSyntax] *)

Lemma matchColonSpace_exact s r :
  matchColonSpace s = Some r -> String.length s = String.length r + 2.
Proof.
  destruct s as [|a [|b s]]; simpl; try discriminate.
  destruct (_ && _); [|discriminate]. intros H. injection H as <-. lia.
Qed.

Lemma matchMoreNewlines_consumes s r :
  matchMoreNewlines s = Some r -> String.length r + 2 <= String.length s.
Proof.
  revert r. induction s as [|c s IH]; intros r; rewrite ?matchMoreNewlines_cons.
  - discriminate.
  - destruct (Ascii.eqb c LF).
    + destruct (matchMoreNewlines s) as [k|].
      * intros H. injection H as <-. specialize (IH _ eq_refl). simpl. lia.
      * intros H. apply matchColonSpace_exact in H. lia.
    + intros H. apply matchColonSpace_exact in H. lia.
Qed.

Lemma matchDefinitionList_consumes s r :
  matchDefinitionList s = Some r -> String.length r + 3 <= String.length s.
Proof.
  destruct s as [|c s]; simpl; [discriminate|].
  destruct (Ascii.eqb c LF); [|discriminate].
  intros H. apply matchMoreNewlines_consumes in H. lia.
Qed.

Lemma matchDefinitionList_fix c r :
  matchDefinitionList (String c r) = None ->
  matchDefinitionList (String c (fixDefinitionListSyntax r)) = None.
Proof.
  cbn [matchDefinitionList]. destruct (Ascii.eqb c LF); [|reflexivity].
  apply matchMoreNewlines_fix.
Qed.

Lemma fix_no_break_bounded n :
  forall s, String.length s <= n ->
  hasDefinitionListBreak (fixDefinitionListSyntax s) = false.
Proof.
  induction n as [|n IH]; intros [|c r] Hlen; simpl in Hlen;
    try (rewrite fix_empty; reflexivity); try lia.
  destruct (matchDefinitionList (String c r)) as [after|] eqn:E.
  - rewrite (fix_match _ _ _ E).
    change (": " ++ fixDefinitionListSyntax after)
      with (String ":" (String " " (fixDefinitionListSyntax after))).
    cbn [hasDefinitionListBreak matchDefinitionList].
    change (Ascii.eqb ":" LF) with false. change (Ascii.eqb " " LF) with false.
    cbv iota. apply IH. apply matchDefinitionList_length in E. simpl in E. lia.
  - rewrite (fix_nomatch _ _ E).
    cbn [hasDefinitionListBreak]. rewrite (matchDefinitionList_fix _ _ E).
    apply IH. lia.
Qed.

Lemma fix_no_break s :
  hasDefinitionListBreak (fixDefinitionListSyntax s) = false.
Proof. apply (fix_no_break_bounded (String.length s)). apply Nat.le_refl. Qed.

(** X1. The normalised text never contains the pattern again: no newline
    of the output is followed, through further newlines, by [": "]. *)
Theorem fixDefinitionListSyntax_leaves_no_break (s : string) :
  hasDefinitionListBreak (fixDefinitionListSyntax s) = false.
Proof. apply fix_no_break. Qed.

Lemma fix_unchanged_without_break s :
  hasDefinitionListBreak s = false -> fixDefinitionListSyntax s = s.
Proof.
  induction s as [|c r IH]; [intros _; apply fix_empty|].
  cbn [hasDefinitionListBreak].
  destruct (matchDefinitionList (String c r)) eqn:E; [discriminate|].
  intros H. rewrite (fix_nomatch _ _ E), IH by assumption. reflexivity.
Qed.

(** X2. The normalisation changes a text exactly when the pattern occurs
    in it. *)
Theorem fixDefinitionListSyntax_changes_iff_break (s : string) :
  fixDefinitionListSyntax s = s <-> hasDefinitionListBreak s = false.
Proof.
  split.
  - intros H. rewrite <- H. apply fix_no_break.
  - apply fix_unchanged_without_break.
Qed.

Lemma fix_length_bounded n :
  forall s, String.length s <= n ->
  String.length (fixDefinitionListSyntax s) <= String.length s
  /\ (hasDefinitionListBreak s = true ->
      String.length (fixDefinitionListSyntax s) < String.length s).
Proof.
  induction n as [|n IH]; intros [|c r] Hlen; simpl in Hlen;
    try (rewrite fix_empty; split; [apply Nat.le_refl | discriminate]); try lia.
  cbn [hasDefinitionListBreak].
  destruct (matchDefinitionList (String c r)) as [after|] eqn:E.
  - rewrite (fix_match _ _ _ E).
    pose proof (matchDefinitionList_consumes _ _ E) as Hc. simpl in Hc.
    destruct (IH after ltac:(lia)) as [Hle _].
    change (": " ++ fixDefinitionListSyntax after)
      with (String ":" (String " " (fixDefinitionListSyntax after))).
    simpl. split; [lia | intros _; lia].
  - rewrite (fix_nomatch _ _ E). destruct (IH r ltac:(lia)) as [Hle Hlt].
    simpl. split; [lia | intros H; specialize (Hlt H); lia].
Qed.

(** X3. The normalisation never lengthens a text, and shortens it
    whenever the pattern occurs in it. *)
Theorem fixDefinitionListSyntax_never_lengthens (s : string) :
  String.length (fixDefinitionListSyntax s) <= String.length s
  /\ (hasDefinitionListBreak s = true ->
      String.length (fixDefinitionListSyntax s) < String.length s).
Proof. apply (fix_length_bounded (String.length s)). apply Nat.le_refl. Qed.

Lemma fixDefinitionListSyntax_never_lengthens_witness :
  hasDefinitionListBreak ("Revenue" ++ nl ++ nl ++ ": $10B") = true
  /\ String.length (fixDefinitionListSyntax ("Revenue" ++ nl ++ nl ++ ": $10B"))
     < String.length ("Revenue" ++ nl ++ nl ++ ": $10B").
Proof.
  split; [reflexivity|].
  apply (proj2 (fixDefinitionListSyntax_never_lengthens
                  ("Revenue" ++ nl ++ nl ++ ": $10B"))).
  reflexivity.
Defined.

(** ** [isAboutQuestion] *)

Lemma toLowerCase_ascii c r :
  Nat.ltb (nat_of_ascii c) 128 = true ->
  toLowerCase (String c r) = String (lowerAscii c) (toLowerCase r).
Proof.
  intros H. apply Nat.ltb_lt in H. cbn [toLowerCase]. unfold byteIs.
  replace (Nat.eqb (nat_of_ascii c) 196) with false
    by (symmetry; apply Nat.eqb_neq; lia).
  replace (Nat.eqb (nat_of_ascii c) 226) with false
    by (symmetry; apply Nat.eqb_neq; lia).
  reflexivity.
Qed.

Lemma toLowerCase_literal p rest :
  isAsciiText p = true -> toLowerCase p = p ->
  toLowerCase (p ++ rest) = p ++ toLowerCase rest.
Proof.
  induction p as [|c p IH]; [reflexivity|]. cbn [isAsciiText].
  intros Ha Hp. apply andb_true_iff in Ha as [Hc Ha].
  change (String c p ++ rest) with (String c (p ++ rest)).
  rewrite toLowerCase_ascii in * by assumption.
  injection Hp as Hc' Hp'. rewrite Hc', IH by assumption. reflexivity.
Qed.

Lemma unicodeWhiteSpace_not_ascii c kept :
  Nat.ltb (nat_of_ascii c) 128 = true ->
  existsb (String.eqb (String c kept)) unicodeWhiteSpace = false.
Proof.
  intros H.
  assert (Hne : forall n, 128 <= n -> n < 256 ->
                          Ascii.eqb c (ascii_of_nat n) = false).
  { intros n Hn Hn'. apply Ascii.eqb_neq. intros ->.
    rewrite nat_ascii_embedding in H by assumption.
    apply Nat.ltb_lt in H. lia. }
  unfold unicodeWhiteSpace. cbn [map bytes existsb String.eqb].
  rewrite !Hne by lia. reflexivity.
Qed.

Lemma isWhiteSpace_ascii c kept :
  Nat.ltb (nat_of_ascii c) 128 = true ->
  isWhiteSpace (String c kept)
  = isAsciiWhiteSpace c && match kept with EmptyString => true | _ => false end.
Proof.
  intros H. unfold isWhiteSpace.
  destruct (isAsciiWhiteSpace c); [destruct kept; reflexivity|].
  now apply unicodeWhiteSpace_not_ascii.
Qed.

Lemma trimEnd_cons c s :
  trimEnd (String c s)
  = if isWhiteSpace (String c (trimEnd s)) then EmptyString
    else String c (trimEnd s).
Proof. reflexivity. Qed.

Lemma trimEnd_literal p x :
  isAsciiText p = true -> lastNotWhite p = true ->
  trimEnd (p ++ x) = p ++ trimEnd x.
Proof.
  induction p as [|c p IH]; [discriminate|]. cbn [isAsciiText].
  intros Ha Hl. apply andb_true_iff in Ha as [Hc Ha].
  change (String c p ++ x) with (String c (p ++ x)).
  rewrite trimEnd_cons, isWhiteSpace_ascii by assumption.
  destruct p as [|d p].
  - simpl in Hl. apply negb_true_iff in Hl. rewrite Hl. reflexivity.
  - rewrite IH by assumption. cbn [append]. now rewrite andb_false_r.
Qed.

Lemma trim_literal p x :
  isAsciiText p = true -> firstNotWhite p = true -> lastNotWhite p = true ->
  trim (p ++ x) = p ++ trimEnd x.
Proof.
  intros Ha Hf Hl. unfold trim. destruct p as [|c p]; [discriminate|].
  change (String c p ++ x) with (String c (p ++ x)). cbn [trimStart].
  simpl in Hf. apply negb_true_iff in Hf. rewrite Hf.
  cbn [isAsciiText] in Ha. apply andb_true_iff in Ha as [Hc Ha'].
  rewrite Hc.
  change (String c (p ++ x)) with (String c p ++ x).
  apply trimEnd_literal; [|assumption]. cbn [isAsciiText]. now rewrite Hc.
Qed.

Lemma startsWith_app p x : startsWith p (p ++ x) = true.
Proof.
  induction p as [|c p IH]; [reflexivity|].
  simpl. now rewrite Ascii.eqb_refl, IH.
Qed.

Lemma normalized_literal p rest :
  isAsciiText p = true -> toLowerCase p = p ->
  firstNotWhite p = true -> lastNotWhite p = true ->
  trim (toLowerCase (p ++ rest)) = p ++ trimEnd (toLowerCase rest).
Proof.
  intros Ha Hp Hf Hl. rewrite toLowerCase_literal by assumption.
  now apply trim_literal.
Qed.

(** X5. Whatever follows one of the nine capability prefixes, the text
    is a canned question: the prefix rules match on the beginning alone
    (so "help" also catches "helpful ideas"). *)
Theorem isAboutQuestion_prefix_catches_all (p rest : string) :
  In p capabilityPrefixes -> isAboutQuestion (p ++ rest) = true.
Proof.
  intros Hin. apply isAboutQuestion_patterns. cbv zeta.
  assert (H : startsWith p (trim (toLowerCase (p ++ rest))) = true).
  { unfold capabilityPrefixes in Hin. cbn [In] in Hin.
    repeat (destruct Hin as [<- | Hin];
            [rewrite normalized_literal by reflexivity; apply startsWith_app|]).
    contradiction. }
  unfold capabilityPrefixes in Hin. cbn [In] in Hin.
  repeat (destruct Hin as [<- | Hin]; [tauto|]). contradiction.
Qed.

Lemma isAboutQuestion_prefix_catches_all_witness :
  In "help" capabilityPrefixes
  /\ isAboutQuestion ("help" ++ "ful ideas for dinner") = true.
Proof.
  split; [cbn; tauto|].
  apply (isAboutQuestion_prefix_catches_all "help" "ful ideas for dinner").
  cbn. tauto.
Defined.

(** X6. A greeting is matched whole: a text that begins with "hi",
    "hello" or "hey" is a canned question exactly when nothing but white
    space, ASCII or not, follows the greeting. *)
Theorem isAboutQuestion_greeting_is_exact (g rest : string) :
  In g greetings ->
  isAboutQuestion (g ++ rest) = String.eqb (trimEnd (toLowerCase rest)) "".
Proof.
  intros Hin. unfold greetings in Hin. cbn [In] in Hin.
  unfold isAboutQuestion.
  destruct Hin as [<- | [<- | [<- | []]]];
    rewrite normalized_literal by reflexivity;
    destruct (trimEnd (toLowerCase rest)) as [|c r]; reflexivity.
Qed.

Lemma isAboutQuestion_greeting_is_exact_witness :
  In "hi" greetings
  /\ isAboutQuestion ("hi" ++ " there") = String.eqb (trimEnd (toLowerCase " there")) "".
Proof.
  split; [cbn; tauto|].
  apply (isAboutQuestion_greeting_is_exact "hi" " there"). cbn. tauto.
Defined.

(** ** Case and padding *)

Lemma string_length_ind (P : string -> Prop) :
  (forall s, (forall t, String.length t < String.length s -> P t) -> P s) ->
  forall s, P s.
Proof.
  intros H s. remember (String.length s) as n eqn:E.
  revert s E. induction n as [n IH] using lt_wf_ind.
  intros s ->. apply H. intros t Ht. now apply (IH (String.length t)).
Qed.

Lemma byteIs_eq c n : n < 256 -> byteIs c n = true -> c = ascii_of_nat n.
Proof.
  intros Hn H. apply Nat.eqb_eq in H. rewrite <- H.
  symmetry. apply ascii_nat_embedding.
Qed.

Lemma byteIs_lowerAscii c n :
  128 <= n -> byteIs (lowerAscii c) n = byteIs c n.
Proof.
  intros Hn. unfold lowerAscii, isUpperAscii.
  destruct (Nat.leb 65 (nat_of_ascii c) && Nat.leb (nat_of_ascii c) 90) eqn:E;
    [|reflexivity].
  apply andb_true_iff in E as [E1 E2].
  apply Nat.leb_le in E1. apply Nat.leb_le in E2.
  unfold byteIs. rewrite nat_ascii_embedding by lia.
  transitivity false; [|symmetry]; apply Nat.eqb_neq; lia.
Qed.

Lemma lowerAscii_idem c : lowerAscii (lowerAscii c) = lowerAscii c.
Proof.
  unfold lowerAscii at 2 3.
  destruct (isUpperAscii c) eqn:E; [|unfold lowerAscii; now rewrite E].
  unfold isUpperAscii in E. apply andb_true_iff in E as [E1 E2].
  apply Nat.leb_le in E1. apply Nat.leb_le in E2.
  unfold lowerAscii, isUpperAscii. rewrite nat_ascii_embedding by lia.
  replace (Nat.leb (nat_of_ascii c + 32) 90) with false
    by (symmetry; apply Nat.leb_gt; lia).
  now rewrite andb_false_r.
Qed.

(** The equations of [toLowerCase]. *)
Lemma toLowerCase_plain c r :
  byteIs c 196 = false -> byteIs c 226 = false ->
  toLowerCase (String c r) = String (lowerAscii c) (toLowerCase r).
Proof. intros H1 H2. cbn [toLowerCase]. now rewrite H1, H2. Qed.

Lemma toLowerCase_196_eq c2 r2 :
  toLowerCase (String (ascii_of_nat 196) (String c2 r2))
  = if byteIs c2 176
    then String "i" (String (ascii_of_nat 204)
                       (String (ascii_of_nat 135) (toLowerCase r2)))
    else String (ascii_of_nat 196) (toLowerCase (String c2 r2)).
Proof. reflexivity. Qed.

Lemma toLowerCase_226_eq c2 c3 r3 :
  toLowerCase (String (ascii_of_nat 226) (String c2 (String c3 r3)))
  = if kelvinTail (String c2 (String c3 r3))
    then String "k" (toLowerCase r3)
    else String (ascii_of_nat 226) (toLowerCase (String c2 (String c3 r3))).
Proof. reflexivity. Qed.

Lemma toLowerCase_196 r :
  firstByteIs 176 r = false ->
  toLowerCase (String (ascii_of_nat 196) r)
  = String (ascii_of_nat 196) (toLowerCase r).
Proof.
  destruct r as [|c2 r2]; [reflexivity|]. cbn [firstByteIs]. intros H.
  now rewrite toLowerCase_196_eq, H.
Qed.

Lemma toLowerCase_226 r :
  kelvinTail r = false ->
  toLowerCase (String (ascii_of_nat 226) r)
  = String (ascii_of_nat 226) (toLowerCase r).
Proof.
  destruct r as [|c2 [|c3 r3]]; try reflexivity. intros H.
  now rewrite toLowerCase_226_eq, H.
Qed.

Lemma toLowerCase_dotted r :
  toLowerCase (String "i" (String (ascii_of_nat 204) (String (ascii_of_nat 135) r)))
  = String "i" (String (ascii_of_nat 204) (String (ascii_of_nat 135) (toLowerCase r))).
Proof. reflexivity. Qed.

Lemma toLowerCase_k r : toLowerCase (String "k" r) = String "k" (toLowerCase r).
Proof. reflexivity. Qed.

(** Lowercasing does not make a continuation byte the first byte. *)
Lemma firstByteIs_toLowerCase n r :
  128 <= n -> n <> 196 -> n <> 226 ->
  firstByteIs n (toLowerCase r) = firstByteIs n r.
Proof.
  intros Hn H196 H226.
  assert (Hi : byteIs "i" n = false) by (apply Nat.eqb_neq; cbn; lia).
  assert (Hk : byteIs "k" n = false) by (apply Nat.eqb_neq; cbn; lia).
  assert (Hc4 : byteIs (ascii_of_nat 196) n = false) by (apply Nat.eqb_neq; cbn; lia).
  assert (He2 : byteIs (ascii_of_nat 226) n = false) by (apply Nat.eqb_neq; cbn; lia).
  destruct r as [|c r]; [reflexivity|].
  destruct (byteIs c 196) eqn:E196.
  - apply byteIs_eq in E196; [|lia]. subst c.
    destruct r as [|c2 r2]; [reflexivity|].
    rewrite toLowerCase_196_eq. destruct (byteIs c2 176); cbn [firstByteIs];
      congruence.
  - destruct (byteIs c 226) eqn:E226.
    + apply byteIs_eq in E226; [|lia]. subst c.
      destruct r as [|c2 [|c3 r3]]; try reflexivity.
      rewrite toLowerCase_226_eq.
      destruct (kelvinTail _); cbn [firstByteIs]; congruence.
    + rewrite toLowerCase_plain by assumption. cbn [firstByteIs].
      now apply byteIs_lowerAscii.
Qed.

Lemma kelvinTail_toLowerCase r : kelvinTail (toLowerCase r) = kelvinTail r.
Proof.
  destruct r as [|c r]; [reflexivity|].
  destruct (byteIs c 196) eqn:E196.
  - apply byteIs_eq in E196; [|lia]. subst c.
    destruct r as [|c2 r2]; [reflexivity|].
    rewrite toLowerCase_196_eq. destruct (byteIs c2 176); reflexivity.
  - destruct (byteIs c 226) eqn:E226.
    + apply byteIs_eq in E226; [|lia]. subst c.
      destruct r as [|c2 [|c3 r3]]; try reflexivity.
      rewrite toLowerCase_226_eq.
      destruct (kelvinTail (String c2 (String c3 r3))); reflexivity.
    + rewrite toLowerCase_plain by assumption. cbn [kelvinTail].
      rewrite byteIs_lowerAscii by lia.
      rewrite firstByteIs_toLowerCase by lia. reflexivity.
Qed.

Lemma toLowerCase_idem s : toLowerCase (toLowerCase s) = toLowerCase s.
Proof.
  induction s as [s IH] using string_length_ind.
  destruct s as [|c r]; [reflexivity|].
  destruct (byteIs c 196) eqn:E196.
  - apply byteIs_eq in E196; [|lia]. subst c.
    destruct r as [|c2 r2]; [reflexivity|].
    rewrite toLowerCase_196_eq. destruct (byteIs c2 176) eqn:E176.
    + rewrite toLowerCase_dotted, IH by (cbn; lia). reflexivity.
    + rewrite toLowerCase_196, IH; [reflexivity | cbn; lia |].
      rewrite firstByteIs_toLowerCase by lia. exact E176.
  - destruct (byteIs c 226) eqn:E226.
    + apply byteIs_eq in E226; [|lia]. subst c.
      assert (Hgen : forall r', String.length r' <= String.length r ->
                kelvinTail r' = false ->
                toLowerCase (toLowerCase (String (ascii_of_nat 226) r'))
                = toLowerCase (String (ascii_of_nat 226) r')).
      { intros r' Hl Hk. rewrite (toLowerCase_226 r') by assumption.
        rewrite toLowerCase_226, IH; [reflexivity | cbn; lia |].
        now rewrite kelvinTail_toLowerCase. }
      destruct (kelvinTail r) eqn:EK; [|now apply Hgen].
      destruct r as [|c2 [|c3 r3]]; try discriminate.
      * cbn [kelvinTail firstByteIs] in EK. now rewrite andb_false_r in EK.
      * rewrite toLowerCase_226_eq, EK, toLowerCase_k, IH by (cbn; lia).
        reflexivity.
    + rewrite toLowerCase_plain by assumption.
      rewrite toLowerCase_plain, lowerAscii_idem, IH;
        [reflexivity | cbn; lia | |];
        rewrite byteIs_lowerAscii by lia; assumption.
Qed.

Lemma startsCharacter_firstByteIs n s :
  128 <= n -> n < 192 -> startsCharacter s = true -> firstByteIs n s = false.
Proof.
  intros H1 H2. destruct s as [|c s]; [reflexivity|].
  cbn [startsCharacter firstByteIs]. unfold byteIs. intros H.
  apply Nat.eqb_neq. apply orb_true_iff in H as [H|H].
  - apply Nat.ltb_lt in H. lia.
  - apply Nat.leb_le in H. lia.
Qed.

Lemma startsCharacter_kelvinTail s :
  startsCharacter s = true -> kelvinTail s = false.
Proof.
  destruct s as [|c s]; [reflexivity|]. intros H.
  apply (startsCharacter_firstByteIs 132) in H; [|lia..].
  cbn [kelvinTail]. cbn [firstByteIs] in H. now rewrite H.
Qed.

(** Lowercasing goes through a concatenation whose right part begins
    with a whole character. *)
Lemma toLowerCase_app t s :
  startsCharacter s = true ->
  toLowerCase (t ++ s) = toLowerCase t ++ toLowerCase s.
Proof.
  intros Hs. induction t as [t IH] using string_length_ind.
  destruct t as [|c r]; [reflexivity|].
  change (String c r ++ s) with (String c (r ++ s)).
  destruct (byteIs c 196) eqn:E196.
  - apply byteIs_eq in E196; [|lia]. subst c.
    destruct r as [|c2 r2].
    + cbn [append]. rewrite toLowerCase_196; [reflexivity|].
      now apply startsCharacter_firstByteIs; [lia..|].
    + change (String c2 r2 ++ s) with (String c2 (r2 ++ s)).
      rewrite !toLowerCase_196_eq. destruct (byteIs c2 176).
      * rewrite IH by (cbn; lia). reflexivity.
      * change (String c2 (r2 ++ s)) with (String c2 r2 ++ s).
        rewrite IH by (cbn; lia). reflexivity.
  - destruct (byteIs c 226) eqn:E226.
    + apply byteIs_eq in E226; [|lia]. subst c.
      destruct (kelvinTail r) eqn:EK.
      * destruct r as [|c2 [|c3 r3]]; try discriminate.
        { cbn [kelvinTail firstByteIs] in EK. now rewrite andb_false_r in EK. }
        change (String c2 (String c3 r3) ++ s)
          with (String c2 (String c3 (r3 ++ s))).
        rewrite !toLowerCase_226_eq.
        change (kelvinTail (String c2 (String c3 (r3 ++ s))))
          with (kelvinTail (String c2 (String c3 r3))).
        rewrite EK, IH by (cbn; lia). reflexivity.
      * rewrite (toLowerCase_226 r) by assumption.
        rewrite toLowerCase_226, IH; [reflexivity | cbn; lia |].
        destruct r as [|c2 [|c3 r3]].
        -- now apply startsCharacter_kelvinTail.
        -- cbn [append kelvinTail].
           rewrite (startsCharacter_firstByteIs 170 s) by (lia || assumption).
           apply andb_false_r.
        -- exact EK.
    + rewrite !toLowerCase_plain by assumption.
      rewrite IH by (cbn; lia). reflexivity.
Qed.

(** The characters that [trim] removes, one by one. *)
Lemma isAsciiWhiteSpace_cases c :
  isAsciiWhiteSpace c = true ->
  In (String c "") (map bytes [[9]; [10]; [11]; [12]; [13]; [32]]).
Proof.
  destruct c as [[] [] [] [] [] [] [] []]; try discriminate; intros _;
    cbn; tauto.
Qed.

Lemma isWhiteSpace_cases ch :
  isWhiteSpace ch = true -> In ch whiteSpaceCharacters.
Proof.
  unfold isWhiteSpace, whiteSpaceCharacters. destruct ch as [|c rest];
    [discriminate|].
  destruct (isAsciiWhiteSpace c) eqn:E.
  - destruct rest; [|discriminate]. intros _. apply in_or_app. left.
    now apply isAsciiWhiteSpace_cases.
  - intros H. apply existsb_exists in H as [x [Hin Hx]].
    apply String.eqb_eq in Hx. subst x. apply in_or_app. now right.
Qed.

(** [tac] on each of the characters that [trim] removes. *)
Ltac each_white H tac :=
  apply isWhiteSpace_cases in H;
  unfold whiteSpaceCharacters, unicodeWhiteSpace in H;
  cbn [map app In] in H;
  repeat (destruct H as [H | H]; [tac H|]);
  try contradiction.

Lemma toLowerCase_white ch s :
  isWhiteSpace ch = true -> toLowerCase (ch ++ s) = ch ++ toLowerCase s.
Proof.
  intros H. each_white H ltac:(fun H => rewrite <- H; reflexivity).
Qed.

Lemma trimStart_white ch s :
  isWhiteSpace ch = true -> trimStart (ch ++ s) = trimStart s.
Proof.
  intros H. each_white H ltac:(fun H => rewrite <- H; reflexivity).
Qed.

Lemma trimEnd_white ch s :
  isWhiteSpace ch = true -> trimEnd s = "" -> trimEnd (ch ++ s) = "".
Proof.
  intros H Hs.
  each_white H ltac:(fun H => rewrite <- H; cbn [bytes append];
                              rewrite !trimEnd_cons, Hs; reflexivity).
Qed.

Lemma startsCharacter_white ch s :
  isWhiteSpace ch = true -> startsCharacter (ch ++ s) = true.
Proof.
  intros H. each_white H ltac:(fun H => rewrite <- H; reflexivity).
Qed.

(** A character that [trim] removes ends in no byte that begins a
    character, unless it is a single byte. *)
Lemma isWhiteSpace_two c1 c2 :
  isWhiteSpace (String c1 (String c2 "")) = true ->
  startsCharacter (String c2 "") = false.
Proof.
  intros H.
  each_white H ltac:(fun H => try discriminate H;
                              injection H as <- <-; reflexivity).
Qed.

Lemma isWhiteSpace_three c1 c2 c3 :
  isWhiteSpace (String c1 (String c2 (String c3 ""))) = true ->
  startsCharacter (String c3 "") = false.
Proof.
  intros H.
  each_white H ltac:(fun H => try discriminate H;
                              injection H as <- <- <-; reflexivity).
Qed.

(** Runs of such characters. *)
Lemma concat_cons (a : string) (l : list string) :
  String.concat "" (a :: l) = a ++ String.concat "" l.
Proof.
  destruct l; cbn [String.concat]; [now rewrite append_nil_r_aux | reflexivity].
Qed.

Lemma toLowerCase_padding ws s :
  forallb isWhiteSpace ws = true ->
  toLowerCase (String.concat "" ws ++ s) = String.concat "" ws ++ toLowerCase s.
Proof.
  induction ws as [|ch ws IH]; [reflexivity|]. cbn [forallb]. intros H.
  apply andb_true_iff in H as [Hc Hw].
  rewrite concat_cons, !append_assoc_aux, toLowerCase_white, IH by assumption.
  reflexivity.
Qed.

Lemma toLowerCase_all_white ws :
  forallb isWhiteSpace ws = true ->
  toLowerCase (String.concat "" ws) = String.concat "" ws.
Proof.
  intros H. pose proof (toLowerCase_padding ws "" H) as E.
  cbn [toLowerCase] in E. now rewrite !append_nil_r_aux in E.
Qed.

Lemma trimStart_padding ws s :
  forallb isWhiteSpace ws = true ->
  trimStart (String.concat "" ws ++ s) = trimStart s.
Proof.
  induction ws as [|ch ws IH]; [reflexivity|]. cbn [forallb]. intros H.
  apply andb_true_iff in H as [Hc Hw].
  rewrite concat_cons, append_assoc_aux, trimStart_white, IH by assumption.
  reflexivity.
Qed.

Lemma trimEnd_all_white ws :
  forallb isWhiteSpace ws = true -> trimEnd (String.concat "" ws) = "".
Proof.
  induction ws as [|ch ws IH]; [reflexivity|]. cbn [forallb]. intros H.
  apply andb_true_iff in H as [Hc Hw].
  rewrite concat_cons. apply trimEnd_white; auto.
Qed.

Lemma trimEnd_padding ws s :
  forallb isWhiteSpace ws = true ->
  trimEnd (s ++ String.concat "" ws) = trimEnd s.
Proof.
  intros H. induction s as [|c s IH].
  - now apply trimEnd_all_white.
  - change (String c s ++ String.concat "" ws)
      with (String c (s ++ String.concat "" ws)).
    now rewrite !trimEnd_cons, IH.
Qed.

Lemma startsCharacter_padding ws :
  forallb isWhiteSpace ws = true -> startsCharacter (String.concat "" ws) = true.
Proof.
  destruct ws as [|ch ws]; [reflexivity|]. cbn [forallb]. intros H.
  apply andb_true_iff in H as [Hc Hw].
  rewrite concat_cons. now apply startsCharacter_white.
Qed.

Lemma trimStart_eq c1 r1 :
  trimStart (String c1 r1)
  = if isAsciiWhiteSpace c1 then trimStart r1
    else if Nat.ltb (nat_of_ascii c1) 128 then String c1 r1
    else
      match r1 with
      | String c2 r2 =>
          if isWhiteSpace (String c1 (String c2 EmptyString))
          then trimStart r2
          else
            match r2 with
            | String c3 r3 =>
                if isWhiteSpace (String c1 (String c2 (String c3 EmptyString)))
                then trimStart r3
                else String c1 r1
            | EmptyString => String c1 r1
            end
      | EmptyString => String c1 r1
      end.
Proof. reflexivity. Qed.

Lemma not_white_two c1 w rest :
  startsCharacter (String w rest) = true ->
  isWhiteSpace (String c1 (String w "")) = false.
Proof.
  intros H. destruct (isWhiteSpace (String c1 (String w ""))) eqn:E;
    [|reflexivity].
  apply isWhiteSpace_two in E. cbn [startsCharacter] in *. congruence.
Qed.

Lemma not_white_three c1 c2 w rest :
  startsCharacter (String w rest) = true ->
  isWhiteSpace (String c1 (String c2 (String w ""))) = false.
Proof.
  intros H. destruct (isWhiteSpace (String c1 (String c2 (String w "")))) eqn:E;
    [|reflexivity].
  apply isWhiteSpace_three in E. cbn [startsCharacter] in *. congruence.
Qed.

(** White space after the text is removed, whatever the text. *)
Lemma trim_padding_right t ws :
  forallb isWhiteSpace ws = true ->
  trim (t ++ String.concat "" ws) = trim t.
Proof.
  intros H. unfold trim.
  pose proof (startsCharacter_padding ws H) as Hstart.
  pose proof (fun s => trimEnd_padding ws s H) as Hend.
  assert (Hall : trimStart (String.concat "" ws) = "").
  { rewrite <- (append_nil_r_aux (String.concat "" ws)).
    now rewrite trimStart_padding. }
  set (W := String.concat "" ws) in *. clearbody W. clear H.
  assert (Hwhole : forall s, trimEnd (s ++ W) = trimEnd s) by exact Hend.
  induction t as [t IH] using string_length_ind.
  destruct t as [|c1 r1].
  - cbn [append]. now rewrite Hall.
  - change (String c1 r1 ++ W) with (String c1 (r1 ++ W)).
    rewrite !trimStart_eq.
    destruct (isAsciiWhiteSpace c1); [apply IH; cbn; lia|].
    destruct (Nat.ltb (nat_of_ascii c1) 128);
      [apply (Hwhole (String c1 r1))|].
    destruct r1 as [|c2 r2].
    + cbn [append]. destruct W as [|w1 W']; [reflexivity|].
      rewrite (not_white_two c1 w1 W') by assumption.
      destruct W' as [|w2 W'']; [apply (Hwhole (String c1 ""))|].
      destruct (isWhiteSpace (String c1 (String w1 (String w2 "")))) eqn:E.
      * apply isWhiteSpace_cases in E.
        unfold whiteSpaceCharacters, unicodeWhiteSpace in E.
        cbn [map app In] in E. exfalso.
        cbn [startsCharacter] in Hstart.
        repeat (destruct E as [E | E];
                [try discriminate E; injection E as <- <- <-; discriminate|]).
        contradiction.
      * apply (Hwhole (String c1 "")).
    + cbn [append].
      destruct (isWhiteSpace (String c1 (String c2 ""))); [apply IH; cbn; lia|].
      destruct r2 as [|c3 r3].
      * cbn [append]. destruct W as [|w1 W'']; [reflexivity|].
        rewrite (not_white_three c1 c2 w1 W'') by assumption.
        apply (Hwhole (String c1 (String c2 ""))).
      * cbn [append].
        destruct (isWhiteSpace (String c1 (String c2 (String c3 ""))));
          [apply IH; cbn; lia|].
        apply (Hwhole (String c1 (String c2 (String c3 r3)))).
Qed.

(** X4. [isAboutQuestion] sees neither case nor surrounding white space:
    lowercasing the text beforehand does not change the answer, and
    neither does padding it, on either side, with any characters that
    [trim] removes, ASCII or not. *)
Theorem isAboutQuestion_ignores_case_and_padding
  (text : string) (before after : list string) :
  isAboutQuestion (toLowerCase text) = isAboutQuestion text
  /\ (forallb isWhiteSpace before = true ->
      forallb isWhiteSpace after = true ->
      isAboutQuestion (String.concat "" before ++ text ++ String.concat "" after)
      = isAboutQuestion text).
Proof.
  split.
  - unfold isAboutQuestion. now rewrite toLowerCase_idem.
  - intros Hb Ha. unfold isAboutQuestion.
    rewrite toLowerCase_padding by assumption.
    rewrite toLowerCase_app by now apply startsCharacter_padding.
    rewrite toLowerCase_all_white by assumption.
    unfold trim. rewrite trimStart_padding by assumption.
    fold (trim (toLowerCase text ++ String.concat "" after)).
    now rewrite trim_padding_right.
Qed.

Lemma isAboutQuestion_ignores_case_and_padding_witness :
  forallb isWhiteSpace [bytes [194; 160]; " "] = true
  /\ forallb isWhiteSpace [bytes [226; 128; 168]] = true
  /\ isAboutQuestion
       (String.concat "" [bytes [194; 160]; " "] ++ "Who are YOU?"
          ++ String.concat "" [bytes [226; 128; 168]])
     = isAboutQuestion "Who are YOU?".
Proof.
  split; [reflexivity|]. split; [reflexivity|].
  apply (proj2 (isAboutQuestion_ignores_case_and_padding "Who are YOU?"
                  [bytes [194; 160]; " "] [bytes [226; 128; 168]]));
    reflexivity.
Defined.

(** ** Reading the conversation *)

Lemma getQueryFrom_no_human msgs i :
  forallb (fun m => negb (isHuman m)) msgs = true -> getQueryFrom msgs i = "".
Proof.
  intros H. induction i as [|j IH]; [reflexivity|]. cbn [getQueryFrom].
  destruct (nth_error msgs j) as [m|] eqn:E; [|exact IH].
  rewrite forallb_forall in H. apply nth_error_In in E. apply H in E.
  unfold isHuman in E. apply negb_true_iff in E. now rewrite E.
Qed.

Lemma getQueryFrom_later pre h post :
  forallb (fun m => negb (isHuman m)) post = true ->
  forall later,
    getQueryFrom (pre ++ h :: post ++ later) (List.length (pre ++ h :: post))
    = getQueryFrom (pre ++ h :: post ++ later) (S (List.length pre)).
Proof.
  induction post as [|t post IH] using rev_ind; intros Hpost later.
  - rewrite length_app. simpl. now rewrite Nat.add_1_r.
  - rewrite forallb_app in Hpost. apply andb_true_iff in Hpost as [Hpost Ht].
    cbn [forallb] in Ht. rewrite andb_true_r in Ht.
    replace (List.length (pre ++ h :: post ++ [t]))
      with (S (List.length (pre ++ h :: post)))
      by (repeat (rewrite length_app; cbn [List.length]); lia).
    cbn [getQueryFrom].
    replace (pre ++ h :: (post ++ [t]) ++ later)%list
      with ((pre ++ h :: post) ++ t :: later)%list by list_eq.
    rewrite nth_error_app2 by lia. rewrite Nat.sub_diag. cbn [nth_error].
    unfold isHuman in Ht. apply negb_true_iff in Ht. rewrite Ht.
    replace ((pre ++ h :: post) ++ t :: later)%list
      with (pre ++ h :: post ++ t :: later)%list by list_eq.
    now apply IH.
Qed.

(** X7. [getQueryFromMessages] returns the text of the most recent human
    message, whatever assistant or tool messages follow it, and the
    empty string when the conversation holds no human message. *)
Theorem getQueryFromMessages_latest_human :
  (forall pre h post,
      isHuman h = true ->
      forallb (fun m => negb (isHuman m)) post = true ->
      getQueryFromMessages (pre ++ h :: post) = contentToText (content h))
  /\ (forall msgs,
      forallb (fun m => negb (isHuman m)) msgs = true ->
      getQueryFromMessages msgs = "").
Proof.
  split.
  - intros pre h post Hh Hpost. unfold getQueryFromMessages.
    replace (pre ++ h :: post)%list with (pre ++ h :: post ++ [])%list at 1
      by (now rewrite app_nil_r).
    replace (List.length (pre ++ h :: post))
      with (List.length (pre ++ h :: post)) by reflexivity.
    rewrite getQueryFrom_later by assumption.
    cbn [getQueryFrom]. rewrite nth_error_app2 by lia.
    rewrite Nat.sub_diag. cbn [nth_error]. unfold isHuman in Hh. now rewrite Hh.
  - intros msgs H. now apply getQueryFrom_no_human.
Qed.

Lemma getQueryFromMessages_latest_human_witness :
  isHuman (HumanMessage "hi") = true
  /\ getQueryFromMessages
       ([AIMessage "Earlier answer."] ++ HumanMessage "hi" :: [AIMessage "Hello!"])
     = "hi".
Proof.
  split; [reflexivity|].
  apply (proj1 getQueryFromMessages_latest_human
           [AIMessage "Earlier answer."] (HumanMessage "hi") [AIMessage "Hello!"]);
    reflexivity.
Defined.

Lemma collectToolMessages_filter pre post :
  forallb (fun m => negb (isAI m)) post = true ->
  forall later acc,
    collectToolMessages (pre ++ post ++ later) (List.length (pre ++ post)) acc
    = (collectToolMessages (pre ++ post ++ later) (List.length pre)
         (filter isTool post ++ acc))%list.
Proof.
  induction post as [|t post IH] using rev_ind; intros Hpost later acc.
  - now rewrite app_nil_r.
  - rewrite forallb_app in Hpost. apply andb_true_iff in Hpost as [Hpost Ht].
    cbn [forallb] in Ht. rewrite andb_true_r in Ht.
    replace (List.length (pre ++ post ++ [t]))
      with (S (List.length (pre ++ post)))
      by (repeat (rewrite length_app; cbn [List.length]); lia).
    cbn [collectToolMessages].
    replace (pre ++ (post ++ [t]) ++ later)%list
      with ((pre ++ post) ++ t :: later)%list by list_eq.
    rewrite nth_error_app2 by lia. rewrite Nat.sub_diag. cbn [nth_error].
    replace ((pre ++ post) ++ t :: later)%list
      with (pre ++ post ++ t :: later)%list by list_eq.
    rewrite filter_app. cbn [filter]. unfold isAI, isTool in *.
    destruct (getType t); try discriminate; cbn [MessageType_eqb];
      rewrite IH by assumption; f_equal; list_eq.
Qed.

Lemma collectToolMessages_stops_at_ai pre a later acc :
  isAI a = true ->
  collectToolMessages (pre ++ a :: later) (S (List.length pre)) acc = acc.
Proof.
  intros Ha. cbn [collectToolMessages]. rewrite nth_error_app2 by lia.
  rewrite Nat.sub_diag. cbn [nth_error]. unfold isAI in Ha.
  destruct (getType a); try discriminate. reflexivity.
Qed.

(** X8. [summarizeToolResults] looks at the messages after the most
    recent assistant message (all of them when there is none), passing
    over human and system messages: it returns the one status message
    exactly when a tool message is among them, and nothing otherwise. *)
Theorem summarizeToolResults_after_last_assistant :
  (forall pre a post,
      isAI a = true ->
      forallb (fun m => negb (isAI m)) post = true ->
      summarizeToolResults (mkState (pre ++ a :: post))
      = if existsb isTool post then [AIMessage summary] else [])
  /\ (forall msgs,
      forallb (fun m => negb (isAI m)) msgs = true ->
      summarizeToolResults (mkState msgs)
      = if existsb isTool msgs then [AIMessage summary] else []).
Proof.
  assert (Hex : forall l : list BaseMessage,
             match filter isTool l with
             | [] => []
             | _ :: _ => [AIMessage summary]
             end = if existsb isTool l then [AIMessage summary] else []).
  { induction l as [|x l IH]; [reflexivity|]. cbn [filter existsb].
    destruct (isTool x); [reflexivity | exact IH]. }
  split.
  - intros pre a post Ha Hpost. unfold summarizeToolResults. cbn [messages].
    replace (pre ++ a :: post)%list with ((pre ++ [a]) ++ post ++ [])%list
      by (rewrite app_nil_r; list_eq).
    replace (List.length ((pre ++ [a]) ++ post ++ []))
      with (List.length ((pre ++ [a]) ++ post)) by (now rewrite app_nil_r).
    rewrite collectToolMessages_filter by assumption.
    replace ((pre ++ [a]) ++ post ++ [])%list with (pre ++ a :: post)%list
      by (rewrite app_nil_r; list_eq).
    replace (List.length (pre ++ [a])) with (S (List.length pre))
      by (rewrite length_app; simpl; lia).
    rewrite collectToolMessages_stops_at_ai by assumption.
    rewrite app_nil_r. apply Hex.
  - intros msgs H. unfold summarizeToolResults. cbn [messages].
    pose proof (collectToolMessages_filter [] msgs H [] []) as Hc.
    cbn [app List.length] in Hc. rewrite !app_nil_r in Hc. rewrite Hc.
    cbn [collectToolMessages]. apply Hex.
Qed.

Lemma summarizeToolResults_after_last_assistant_witness :
  isAI (AIMessage announcement) = true
  /\ summarizeToolResults
       (mkState ([HumanMessage "q"] ++ AIMessage announcement :: [HumanMessage "wait"]))
     = [].
Proof.
  split; [reflexivity|].
  apply (proj1 summarizeToolResults_after_last_assistant
           [HumanMessage "q"] (AIMessage announcement) [HumanMessage "wait"]);
    reflexivity.
Defined.

(** ** Routes and the nodes behind them *)

Lemma routeInput_nonempty st r :
  routeInput st = Ok r -> exists earlier m, messages st = (earlier ++ [m])%list.
Proof.
  destruct st as [msgs]. cbn [messages]. intros H.
  destruct msgs as [|m0 l]; [discriminate|].
  destruct (nonempty_snoc (m0 :: l)) as (earlier & m & E); [discriminate|].
  eauto.
Qed.

(** X9. The node behind the canned route always has the canned answer to
    append: when [routeInput] returns the canned route,
    [returnHardcodedResponse] returns exactly the one assistant message
    with [ABOUT_RESPONSE]; its empty fallback is what it returns on the
    conversations that [routeInput] sends to the agent. *)
Theorem returnHardcodedResponse_agrees_with_route (st : MinskyState) :
  (routeInput st = Ok route_hardcoded ->
     returnHardcodedResponse st = Ok [AIMessage ABOUT_RESPONSE])
  /\ (routeInput st = Ok route_agent -> returnHardcodedResponse st = Ok []).
Proof.
  split; intros H; destruct (routeInput_nonempty _ _ H) as (earlier & m & E);
    destruct st as [msgs]; cbn [messages] in E; subst msgs;
    rewrite routeInput_snoc in H; unfold returnHardcodedResponse;
    rewrite handleHardcodedResponse_snoc;
    destruct (_ && _); try discriminate; reflexivity.
Qed.

Lemma returnHardcodedResponse_agrees_with_route_witness :
  routeInput (mkState [HumanMessage "What is NVDA's P/E?"]) = Ok route_agent
  /\ returnHardcodedResponse (mkState [HumanMessage "What is NVDA's P/E?"]) = Ok [].
Proof.
  split; [reflexivity|].
  apply (proj2 (returnHardcodedResponse_agrees_with_route
                  (mkState [HumanMessage "What is NVDA's P/E?"]))).
  reflexivity.
Defined.

(** X10. The announce node always announces: whenever
    [routeModelOutput] sends a state on to the tools, [announceToolCalls]
    on that state returns exactly the one announcement, and the process
    state is as it was. *)
Theorem announceToolCalls_agrees_with_route (st : MinskyState) (p p' : Process) :
  routeModelOutput st p = (Ok route_tools, p') ->
  announceToolCalls st = Ok [AIMessage announcement] /\ p' = p.
Proof.
  unfold routeModelOutput, bind, getIterationCount, announceToolCalls.
  destruct (Nat.leb MAX_ITERATIONS (iterationCount p)); [discriminate|].
  destruct (lastMessageOf (messages st)) as [m|]; [|discriminate].
  destruct (MessageType_eqb (getType m) ai) eqn:Ea; cbn [andb negb];
    [|discriminate].
  unfold hasToolCalls. destruct (tool_calls m); [discriminate|].
  intros H. injection H as <-. split; reflexivity.
Qed.

Lemma announceToolCalls_agrees_with_route_witness :
  routeModelOutput
    (mkState [Scenario.question; responseMessage Scenario.toolRequest])
    (mkProcess 1 [])
  = (Ok route_tools, mkProcess 1 [])
  /\ announceToolCalls
       (mkState [Scenario.question; responseMessage Scenario.toolRequest])
     = Ok [AIMessage announcement].
Proof.
  split; [reflexivity|].
  apply (proj1 (announceToolCalls_agrees_with_route
                  (mkState [Scenario.question; responseMessage Scenario.toolRequest])
                  (mkProcess 1 []) (mkProcess 1 []) eq_refl)).
Defined.

(** X11. A human turn whose content is not a string but a list of
    content blocks is never a canned question: its text is the
    [JSON.stringify] rendering of an array, which begins with a bracket. *)
Theorem block_content_is_never_canned
  (earlier : list BaseMessage) (m : BaseMessage) (rendering : string) :
  getType m = human ->
  content m = ContentBlocks rendering ->
  startsWith "[" rendering = true ->
  routeInput (mkState (earlier ++ [m])) = Ok route_agent.
Proof.
  intros Hh Hc Hs. rewrite routeInput_snoc, Hh, Hc. cbn [contentToText].
  destruct rendering as [|c r]; [discriminate|].
  simpl in Hs. rewrite andb_true_r in Hs. apply Ascii.eqb_eq in Hs. subst c.
  replace (isAboutQuestion (String "[" r)) with false; [reflexivity|].
  unfold isAboutQuestion.
  change (String "[" r) with ("[" ++ r).
  rewrite normalized_literal by reflexivity. reflexivity.
Qed.

Lemma block_content_is_never_canned_witness :
  startsWith "[" ("[{" ++ dq ++ "type" ++ dq ++ ":" ++ dq ++ "text" ++ dq ++ "}]") = true
  /\ routeInput
       (mkState ([] ++ [mkMessage human
                          (ContentBlocks ("[{" ++ dq ++ "type" ++ dq ++ ":"
                                            ++ dq ++ "text" ++ dq ++ "}]"))
                          [] None None]))
     = Ok route_agent.
Proof.
  split; [reflexivity|].
  apply (block_content_is_never_canned []
           (mkMessage human
              (ContentBlocks ("[{" ++ dq ++ "type" ++ dq ++ ":"
                                ++ dq ++ "text" ++ dq ++ "}]"))
              [] None None)
           ("[{" ++ dq ++ "type" ++ dq ++ ":" ++ dq ++ "text" ++ dq ++ "}]"));
    reflexivity.
Defined.

(** ** The process state across transitions *)

Section ProcessFacts.

Variable AGENT_SYSTEM_PROMPT : string.
Variable collab : Collaborators.

Local Abbreviation step := (step AGENT_SYSTEM_PROMPT collab).
Local Abbreviation run := (run AGENT_SYSTEM_PROMPT collab).
Local Abbreviation callModel := (callModel AGENT_SYSTEM_PROMPT collab).
Local Abbreviation systemMessage := (systemMessage AGENT_SYSTEM_PROMPT).

Lemma hasToolCalls_true m : hasToolCalls m = true <-> tool_calls m <> [].
Proof.
  unfold hasToolCalls. destruct (tool_calls m); split; congruence.
Qed.

(** The reasoning node, case by case. *)
Lemma step_agent_cases earlier calls vis p :
  step (mkSession agent (mkState earlier) calls vis) p
  = match respond collab calls (systemMessage :: earlier) with
    | Throw e => (Throw e, p)
    | Ok r =>
        let m := responseMessage (fixResponseContent r) in
        let merged := mkState (earlier ++ [m]) in
        if Nat.leb MAX_ITERATIONS (S (iterationCount p)) then
          (Ok (mkSession END merged (S calls) (vis ++ [agent])),
           mkProcess 0 (console p ++ [ceilingWarning]))
        else if hasToolCalls m then
          (Ok (mkSession announce merged (S calls) (vis ++ [agent])),
           mkProcess (S (iterationCount p)) (console p))
        else
          (Ok (mkSession END merged (S calls) (vis ++ [agent])),
           mkProcess 0 (console p))
    end.
Proof.
  destruct (respond collab calls (systemMessage :: earlier)) as [r|e] eqn:Er.
  - cbv zeta.
    destruct (Nat.leb MAX_ITERATIONS (S (iterationCount p))) eqn:Ec.
    + apply Nat.leb_le in Ec. now apply step_agent_ceiling.
    + apply Nat.leb_gt in Ec.
      destruct (hasToolCalls (responseMessage (fixResponseContent r))) eqn:Et.
      * apply hasToolCalls_true in Et.
        rewrite tool_calls_fixResponseContent in Et.
        now apply step_agent_tools.
      * apply step_agent_natural; trivial.
        rewrite <- (tool_calls_fixResponseContent r).
        unfold hasToolCalls in Et.
        destruct (tool_calls (responseMessage (fixResponseContent r)));
          [reflexivity | discriminate].
  - unfold step. cbn [node state reasoningCalls].
    unfold bind at 1.
    now rewrite (callModel_throw AGENT_SYSTEM_PROMPT collab calls (mkState earlier) p e Er).
Qed.

Lemma step_not_agent s p : node s <> agent -> snd (step s p) = p.
Proof.
  intros Hn. unfold step, bind, lift, ret.
  destruct (node s); try congruence.
  - destruct (routeInput (state s)); reflexivity.
  - destruct (returnHardcodedResponse (state s)); reflexivity.
  - destruct (announceToolCalls (state s)); reflexivity.
  - reflexivity.
  - reflexivity.
  - reflexivity.
Qed.

(** X13. A transition that throws leaves the process state as it was: a
    reasoning call that fails does not consume an iteration. *)
Theorem failed_step_keeps_process (s : Session) (p p' : Process) (e : Thrown) :
  step s p = (Throw e, p') -> p' = p.
Proof.
  intros H. destruct (Node_eq_dec (node s) agent) as [Ha|Hn].
  - destruct s as [n [earlier] calls vis]. cbn [node] in Ha. subst n.
    rewrite step_agent_cases in H.
    destruct (respond collab calls (systemMessage :: earlier)) as [r|e'].
    + cbv zeta in H.
      destruct (Nat.leb MAX_ITERATIONS (S (iterationCount p))); [discriminate|].
      destruct (hasToolCalls _); discriminate.
    + now injection H.
  - pose proof (step_not_agent s p Hn) as Hs. rewrite H in Hs.
    exact Hs.
Qed.

(** X14. Every completed reasoning step counts one call and leaves the
    iteration counter below the ceiling, whatever value it found: on to
    the tools with one more than before, or at [END] with zero. *)
Theorem agent_step_keeps_counter_below_ceiling
  (s s' : Session) (p p' : Process) :
  node s = agent -> step s p = (Ok s', p') ->
  iterationCount p' < MAX_ITERATIONS
  /\ reasoningCalls s' = S (reasoningCalls s)
  /\ ((node s' = announce /\ iterationCount p' = S (iterationCount p))
      \/ (node s' = END /\ iterationCount p' = 0)).
Proof.
  intros Ha H. destruct s as [n [earlier] calls vis]. cbn [node] in Ha. subst n.
  rewrite step_agent_cases in H.
  destruct (respond collab calls (systemMessage :: earlier)) as [r|e];
    [|discriminate].
  cbv zeta in H.
  destruct (Nat.leb MAX_ITERATIONS (S (iterationCount p))) eqn:Ec.
  - injection H as <- <-. cbn. unfold MAX_ITERATIONS. repeat split; try lia.
    right. split; reflexivity.
  - apply Nat.leb_gt in Ec.
    destruct (hasToolCalls _); injection H as <- <-; cbn.
    + repeat split; try lia. left. split; reflexivity.
    + unfold MAX_ITERATIONS. repeat split; try lia. right. split; reflexivity.
Qed.

Lemma run_abort fuel p s p' e :
  node s <> END -> step s p = (Throw e, p') ->
  run (S fuel) p s = Aborted e p' s.
Proof.
  intros Hn Hs. simpl. rewrite Hs.
  destruct (node s); try reflexivity. congruence.
Qed.

Lemma run_from_agent_stops k :
  forall p earlier calls vis fuel,
    MAX_ITERATIONS <= iterationCount p + S k ->
    4 * k + 1 <= fuel ->
    exists s',
      stoppedSession (run fuel p (mkSession agent (mkState earlier) calls vis))
      = Some s'
      /\ reasoningCalls s' <= calls + S k.
Proof.
  induction k as [|k IH]; intros p earlier calls vis fuel Hk Hf;
    (destruct fuel as [|fuel]; [lia|]);
    pose proof (step_agent_cases earlier calls vis p) as Hs;
    destruct (respond collab calls (systemMessage :: earlier)) as [r|e].
  - cbv zeta in Hs. replace (Nat.leb _ _) with true in Hs
      by (symmetry; apply Nat.leb_le; lia).
    erewrite run_step; [| discriminate | exact Hs].
    rewrite run_END by reflexivity. eexists. split; [reflexivity|]. cbn. lia.
  - erewrite run_abort; [| discriminate | exact Hs].
    eexists. split; [reflexivity|]. cbn. lia.
  - cbv zeta in Hs.
    destruct (Nat.leb MAX_ITERATIONS (S (iterationCount p))).
    + erewrite run_step; [| discriminate | exact Hs].
      rewrite run_END by reflexivity. eexists. split; [reflexivity|]. cbn. lia.
    + destruct (hasToolCalls (responseMessage (fixResponseContent r))) eqn:Et.
      * erewrite run_step; [| discriminate | exact Hs].
        destruct fuel as [|[|[|fuel]]]; try lia.
        rewrite run_cycle; [| reflexivity | now apply hasToolCalls_true].
        destruct (IH (mkProcess (S (iterationCount p)) (console p))
                     (afterCycle collab earlier
                        (responseMessage (fixResponseContent r)))
                     (S calls) ((vis ++ [agent]) ++ [announce; tools; progress])%list
                     fuel) as (s' & Hrun & Hc).
        { cbn [iterationCount]. lia. }
        { lia. }
        exists s'. split; [exact Hrun | lia].
      * erewrite run_step; [| discriminate | exact Hs].
        rewrite run_END by reflexivity. eexists. split; [reflexivity|]. cbn. lia.
  - erewrite run_abort; [| discriminate | exact Hs].
    eexists. split; [reflexivity|]. cbn. lia.
Qed.

(** X15. Every run stops.  Whatever the conversation, the counter found,
    the reasoning client and the tool node, [4 * MAX_ITERATIONS]
    transitions are enough for the run to reach [END] or to be stopped by
    an exception, and it has then called the reasoning client at most
    [MAX_ITERATIONS] times. *)
Theorem every_run_stops (p : Process) (msgs : list BaseMessage) (fuel : nat) :
  4 * MAX_ITERATIONS <= fuel ->
  exists s',
    stoppedSession (run fuel p (startSession msgs)) = Some s'
    /\ reasoningCalls s' <= MAX_ITERATIONS.
Proof.
  intros Hf. destruct fuel as [|fuel]; [unfold MAX_ITERATIONS in Hf; lia|].
  destruct (routeInput (mkState msgs)) as [[]|e] eqn:Er.
  - destruct (routeInput_hardcoded_inv _ Er) as (earlier & m & -> & Hh & Hq).
    destruct fuel as [|fuel]; [unfold MAX_ITERATIONS in Hf; lia|].
    rewrite run_canned by assumption.
    eexists. split; [reflexivity|]. cbn. lia.
  - erewrite run_step; [| discriminate |].
    2:{ unfold step, startSession, bind, lift, ret. cbn [node state].
        rewrite Er. reflexivity. }
    cbn [reasoningCalls visited].
    destruct (run_from_agent_stops (MAX_ITERATIONS - 1) p msgs 0 [] fuel)
      as (s' & Hrun & Hc).
    { unfold MAX_ITERATIONS. lia. }
    { unfold MAX_ITERATIONS in *. lia. }
    exists s'. split; [exact Hrun|]. unfold MAX_ITERATIONS in *. lia.
  - erewrite run_abort; [| discriminate |].
    2:{ unfold step, startSession, bind, lift. cbn [node state].
        rewrite Er. reflexivity. }
    eexists. split; [reflexivity|]. cbn. lia.
Qed.

(** X16. What the reasoning node appends: exactly one assistant message,
    carrying the tool calls of the model's output unchanged, and whose
    text, when the content is a string, no longer contains the
    definition-list pattern. *)
Theorem callModel_appends_normalised_output
  (calls : nat) (st : MinskyState) (p p' : Process) (update : list BaseMessage) :
  callModel calls st p = (Ok update, p') ->
  exists r m,
    respond collab calls (systemMessage :: messages st) = Ok r
    /\ update = [m]
    /\ getType m = ai
    /\ tool_calls m = response_tool_calls r
    /\ (forall t, content m = ContentText t -> hasDefinitionListBreak t = false).
Proof.
  intros H.
  destruct (respond collab calls (systemMessage :: messages st)) as [r|e] eqn:E.
  - rewrite (callModel_ok AGENT_SYSTEM_PROMPT collab calls st p r E) in H.
    injection H as <- _.
    exists r, (responseMessage (fixResponseContent r)).
    repeat split; try reflexivity.
    + apply tool_calls_fixResponseContent.
    + intros t. unfold fixResponseContent.
      destruct r as [[s|j] tcs]; cbn; [|discriminate].
      destruct (String.eqb s "") eqn:Es; cbn; intros Ht; injection Ht as <-.
      * apply String.eqb_eq in Es. now subst s.
      * apply fix_no_break.
  - rewrite (callModel_throw AGENT_SYSTEM_PROMPT collab calls st p e E) in H.
    discriminate.
Qed.

(** X23. The reasoning node throws only when the reasoning client does:
    once the model has answered, counting the iteration and routing on
    the merged state cannot fail, since the state then ends with the
    answer. *)
Theorem agent_step_throws_only_with_client
  (s : Session) (p p' : Process) (e : Thrown) :
  node s = agent ->
  step s p = (Throw e, p') ->
  respond collab (reasoningCalls s) (systemMessage :: messages (state s)) = Throw e.
Proof.
  intros Ha H. destruct s as [n [earlier] calls vis]. cbn [node] in Ha. subst n.
  cbn [reasoningCalls state messages]. rewrite step_agent_cases in H.
  destruct (respond collab calls (systemMessage :: earlier)) as [r|e'].
  - cbv zeta in H.
    destruct (Nat.leb MAX_ITERATIONS (S (iterationCount p))); [discriminate|].
    destruct (hasToolCalls _); discriminate.
  - now injection H as ->.
Qed.

End ProcessFacts.

Lemma failed_step_keeps_process_witness :
  step Scenario.prompt Scenario.requestThenFail
       (mkSession agent (mkState [Scenario.question]) 1 []) (mkProcess 1 [])
  = (Throw (ErrorObject "Connection error."), mkProcess 1 [])
  /\ mkProcess 1 [] = mkProcess 1 [].
Proof.
  split; [reflexivity|].
  apply (failed_step_keeps_process Scenario.prompt Scenario.requestThenFail
           (mkSession agent (mkState [Scenario.question]) 1 [])
           (mkProcess 1 []) (mkProcess 1 []) (ErrorObject "Connection error.")).
  reflexivity.
Defined.

Lemma agent_step_keeps_counter_below_ceiling_witness :
  exists s' p',
    step Scenario.prompt Scenario.alwaysRequest
         (mkSession agent (mkState [Scenario.question]) 0 []) (mkProcess 500 [])
    = (Ok s', p')
    /\ iterationCount p' < MAX_ITERATIONS.
Proof.
  do 2 eexists.
  assert (H : step Scenario.prompt Scenario.alwaysRequest
                   (mkSession agent (mkState [Scenario.question]) 0 [])
                   (mkProcess 500 [])
              = (Ok (mkSession END
                       (mkState [Scenario.question;
                                 responseMessage Scenario.toolRequest])
                       1 [agent]),
                 mkProcess 0 [ceilingWarning]))
    by reflexivity.
  split; [exact H|].
  exact (proj1 (agent_step_keeps_counter_below_ceiling Scenario.prompt
                  Scenario.alwaysRequest
                  (mkSession agent (mkState [Scenario.question]) 0 [])
                  _ (mkProcess 500 []) _ eq_refl H)).
Defined.

Lemma every_run_stops_witness :
  4 * MAX_ITERATIONS <= 80
  /\ exists s',
       stoppedSession (run Scenario.prompt Scenario.requestThenFail 80
                           (mkProcess 3 []) (startSession [Scenario.question]))
       = Some s'
       /\ reasoningCalls s' <= MAX_ITERATIONS.
Proof.
  split; [apply Nat.le_refl|].
  apply (every_run_stops Scenario.prompt Scenario.requestThenFail
           (mkProcess 3 []) [Scenario.question] 80).
  apply Nat.le_refl.
Defined.

Lemma callModel_appends_normalised_output_witness :
  callModel Scenario.prompt Scenario.requestThenAnswer 1
            (mkState [Scenario.question]) (mkProcess 1 [])
  = (Ok [responseMessage Scenario.answer], mkProcess 2 [])
  /\ exists r m,
       respond Scenario.requestThenAnswer 1
               (systemMessage Scenario.prompt :: [Scenario.question]) = Ok r
       /\ [responseMessage Scenario.answer] = [m]
       /\ getType m = ai
       /\ tool_calls m = response_tool_calls r
       /\ (forall t, content m = ContentText t -> hasDefinitionListBreak t = false).
Proof.
  split; [reflexivity|].
  apply (callModel_appends_normalised_output Scenario.prompt
           Scenario.requestThenAnswer 1 (mkState [Scenario.question])
           (mkProcess 1 []) (mkProcess 2 []) [responseMessage Scenario.answer]).
  reflexivity.
Defined.

Lemma agent_step_throws_only_with_client_witness :
  step Scenario.prompt Scenario.requestThenFail
       (mkSession agent (mkState [Scenario.question]) 1 []) (mkProcess 1 [])
  = (Throw (ErrorObject "Connection error."), mkProcess 1 [])
  /\ respond Scenario.requestThenFail 1
        (systemMessage Scenario.prompt :: [Scenario.question])
     = Throw (ErrorObject "Connection error.").
Proof.
  split; [reflexivity|].
  apply (agent_step_throws_only_with_client Scenario.prompt Scenario.requestThenFail
           (mkSession agent (mkState [Scenario.question]) 1 [])
           (mkProcess 1 []) (mkProcess 1 []) (ErrorObject "Connection error."));
    reflexivity.
Defined.

(** ** A canned session beside another session *)

Section CannedBeside.

Variable AGENT_SYSTEM_PROMPT : string.
Variables collabA collabB : Collaborators.

Local Abbreviation runSchedule :=
  (runSchedule AGENT_SYSTEM_PROMPT collabA collabB).

Lemma step_on_canned_path b p :
  onCannedPath b ->
  snd (step AGENT_SYSTEM_PROMPT collabB b p) = p
  /\ (forall b', fst (step AGENT_SYSTEM_PROMPT collabB b p) = Ok b' ->
                 onCannedPath b').
Proof.
  intros Hb. split.
  - apply step_not_agent. destruct Hb as [[H _]|[H|H]]; rewrite H; discriminate.
  - intros b'. unfold step, bind, lift, ret, onCannedPath.
    destruct Hb as [[Hn Hr]|[Hn|Hn]]; rewrite Hn.
    + rewrite Hr. cbn. intros H. injection H as <-. cbn. tauto.
    + destruct (returnHardcodedResponse (state b)); cbn; [|discriminate].
      intros H. injection H as <-. cbn. tauto.
    + cbn. intros H. injection H as <-. tauto.
Qed.

Lemma runSchedule_only_A schedule :
  forallb isSessionA schedule = true ->
  forall p a b b',
    viewA (runSchedule schedule p a b) = viewA (runSchedule schedule p a b').
Proof.
  induction schedule as [|t rest IH]; intros Hs p a b b'; [reflexivity|].
  cbn [forallb] in Hs. apply andb_true_iff in Hs as [Ht Hs].
  destruct t; [|discriminate]. simpl.
  destruct (step AGENT_SYSTEM_PROMPT collabA a p) as [[a'|e] p']; now apply IH.
Qed.

Lemma filter_isSessionA_all schedule :
  forallb isSessionA (filter isSessionA schedule) = true.
Proof.
  induction schedule as [|t rest IH]; [reflexivity|].
  destruct t; simpl; assumption.
Qed.

Lemma runSchedule_canned_beside schedule :
  forall p a b,
    onCannedPath b ->
    viewA (runSchedule schedule p a b)
    = viewA (runSchedule (filter isSessionA schedule) p a b).
Proof.
  induction schedule as [|t rest IH]; intros p a b Hb; [reflexivity|].
  destruct t.
  - simpl. destruct (step AGENT_SYSTEM_PROMPT collabA a p) as [[a'|e] p'];
      now apply IH.
  - cbn [filter isSessionA]. simpl.
    destruct (step_on_canned_path b p Hb) as [Hp Hnext].
    destruct (step AGENT_SYSTEM_PROMPT collabB b p) as [[b'|e] p'];
      cbn [fst snd] in *; subst p'.
    + rewrite IH by (now apply Hnext).
      apply runSchedule_only_A, filter_isSessionA_all.
    + now apply IH.
Qed.

(** X17. A session that takes the canned route never disturbs another
    session of the process: whatever the schedule, the other session and
    the process state end up exactly as if the canned session's
    transitions had not taken place. *)
Theorem canned_session_does_not_interfere
  (schedule : list SessionId) (p : Process) (a : Session)
  (earlier : list BaseMessage) (m : BaseMessage) :
  getType m = human ->
  isAboutQuestion (contentToText (content m)) = true ->
  viewA (runSchedule schedule p a (startSession (earlier ++ [m])))
  = viewA (runSchedule (filter isSessionA schedule) p a
             (startSession (earlier ++ [m]))).
Proof.
  intros Hh Hq. apply runSchedule_canned_beside. left. split; [reflexivity|].
  cbn [startSession state]. rewrite routeInput_snoc, Hh, Hq. reflexivity.
Qed.

End CannedBeside.

Lemma canned_session_does_not_interfere_witness :
  isAboutQuestion "hello" = true
  /\ viewA (runSchedule Scenario.prompt Scenario.requestThenAnswer
              Scenario.alwaysRequest
              [sessionA; sessionB; sessionA; sessionB; sessionA]
              (mkProcess 0 []) (startSession [Scenario.question])
              (startSession ([] ++ [HumanMessage "hello"])))
     = viewA (runSchedule Scenario.prompt Scenario.requestThenAnswer
                Scenario.alwaysRequest
                (filter isSessionA [sessionA; sessionB; sessionA; sessionB; sessionA])
                (mkProcess 0 []) (startSession [Scenario.question])
                (startSession ([] ++ [HumanMessage "hello"]))).
Proof.
  split; [reflexivity|].
  apply (canned_session_does_not_interfere Scenario.prompt
           Scenario.requestThenAnswer Scenario.alwaysRequest
           [sessionA; sessionB; sessionA; sessionB; sessionA]
           (mkProcess 0 []) (startSession [Scenario.question])
           [] (HumanMessage "hello")); reflexivity.
Defined.

(** ** More on the search tool *)

Section SearchToolFacts.

Import Perplexity.

Lemma fix_nonempty s : s <> "" -> fixDefinitionListSyntax s <> "".
Proof.
  destruct s as [|c r]; [congruence|]. intros _.
  destruct (matchDefinitionList (String c r)) as [after|] eqn:E.
  - rewrite (fix_match _ _ _ E). discriminate.
  - rewrite (fix_nomatch _ _ E). discriminate.
Qed.

Lemma firstAnswer_nonempty cs : firstAnswer cs <> "".
Proof.
  unfold firstAnswer. destruct cs as [|c cs]; [discriminate|].
  destruct (message_content c) as [s|]; [|discriminate].
  destruct (String.eqb s "") eqn:E; [discriminate|].
  now apply String.eqb_neq.
Qed.

(** X18. Without a credential the tool fails before it touches the
    network: when [PERPLEXITY_API_KEY] is unset or empty the outcome is
    the missing-credential error whatever [fetch] would do.  With a
    credential, the outcome depends on the network only through the
    response to the one request built from the key, the query and the
    focus. *)
Theorem callPerplexityApi_network_use
  (key : option string) (fetch1 fetch2 : Request -> Outcome Response)
  (q f : string) :
  (key = None \/ key = Some "" ->
     callPerplexityApi (mkEnv key fetch1) q f = Throw (ErrorObject missingKeyMessage)
     /\ callPerplexityApi (mkEnv key fetch2) q f
        = Throw (ErrorObject missingKeyMessage))
  /\ (forall apiKey,
        key = Some apiKey ->
        fetch1 (searchRequest apiKey q f) = fetch2 (searchRequest apiKey q f) ->
        callPerplexityApi (mkEnv key fetch1) q f
        = callPerplexityApi (mkEnv key fetch2) q f).
Proof.
  split.
  - intros H. split; apply callPerplexityApi_no_key; exact H.
  - intros apiKey -> H. unfold callPerplexityApi. cbn [PERPLEXITY_API_KEY fetch].
    rewrite H. reflexivity.
Qed.

Lemma callPerplexityApi_network_use_witness :
  callPerplexityApi (mkEnv (Some "") (fetch Scenario.backendDown))
                    "NVIDIA tail risks" "finance"
  = Throw (ErrorObject missingKeyMessage)
  /\ callPerplexityApi (mkEnv (Some "") (fun _ => Throw OtherValue))
                       "NVIDIA tail risks" "finance"
     = Throw (ErrorObject missingKeyMessage).
Proof.
  apply (proj1 (callPerplexityApi_network_use (Some "")
                  (fetch Scenario.backendDown) (fun _ => Throw OtherValue)
                  "NVIDIA tail risks" "finance")).
  right. reflexivity.
Defined.

(** X19. What a successful call returns: the backend answered with a
    success status and a body that has [choices]; the answer is the
    normalised text of the first choice, or of "No response received"
    when there is no first choice or its content is missing or empty, so
    it is never empty and never contains the definition-list pattern;
    the citations are those of the body, or none. *)
Theorem callPerplexityApi_success
  (env : Environment) (q f answer : string) (cites : list string) :
  callPerplexityApi env q f = Ok (answer, cites) ->
  answer <> ""
  /\ hasDefinitionListBreak answer = false
  /\ exists apiKey response data cs,
       PERPLEXITY_API_KEY env = Some apiKey /\ apiKey <> ""
       /\ fetch env (searchRequest apiKey q f) = Ok response
       /\ ok response = true
       /\ json response = Ok data
       /\ choices data = Some cs
       /\ answer = fixDefinitionListSyntax (firstAnswer cs)
       /\ cites = match citations data with Some l => l | None => [] end.
Proof.
  unfold callPerplexityApi.
  destruct (PERPLEXITY_API_KEY env) as [apiKey|] eqn:Ek; [|discriminate].
  destruct (String.eqb apiKey "") eqn:Ee; [discriminate|].
  destruct (fetch env (searchRequest apiKey q f)) as [response|e] eqn:Ef;
    cbn [bindO]; [|discriminate].
  destruct (ok response) eqn:Eo; cbn [negb].
  - destruct (json response) as [data|e] eqn:Ej; cbn [bindO]; [|discriminate].
    destruct (choices data) as [cs|] eqn:Ec; [|discriminate].
    intros H. injection H as <- <-. split; [|split].
    + apply fix_nonempty, firstAnswer_nonempty.
    + apply fix_no_break.
    + exists apiKey, response, data, cs. apply String.eqb_neq in Ee.
      repeat split; assumption.
  - destruct (text response); discriminate.
Qed.

(** An environment whose backend answers with one choice. *)
Lemma callPerplexityApi_success_witness :
  let answering :=
    mkEnv (Some "pplx-key")
      (fun _ => Ok (mkHttp true 200 (Ok "")
                      (Ok (mkData (Some [mkChoice (Some ("Revenue" ++ nl ++ ": $10B"))])
                                  None)))) in
  callPerplexityApi answering "NVIDIA revenue" "finance" = Ok ("Revenue: $10B", [])
  /\ "Revenue: $10B" <> ""
  /\ hasDefinitionListBreak "Revenue: $10B" = false.
Proof.
  cbv zeta. split; [reflexivity|].
  pose proof (callPerplexityApi_success
                (mkEnv (Some "pplx-key")
                   (fun _ => Ok (mkHttp true 200 (Ok "")
                                   (Ok (mkData
                                          (Some [mkChoice
                                                   (Some ("Revenue" ++ nl ++ ": $10B"))])
                                          None)))))
                "NVIDIA revenue" "finance" "Revenue: $10B" [] eq_refl)
    as (H1 & H2 & _).
  split; assumption.
Defined.

Lemma startsWith_false_head a p b s :
  Ascii.eqb b a = false -> startsWith (String a p) (String b s) = false.
Proof. intros H. simpl. now rewrite H. Qed.

(** X20. The two shapes of the tool's result can be told apart by their
    first key: the result begins with the [error] key exactly when
    [callPerplexityApi] threw, and with the [query] key exactly when it
    returned. *)
Theorem search_result_shapes (env : Environment) (input : PerplexitySearchInput) :
  exists out,
    searchPerplexity_func env input = Ok out
    /\ match callPerplexityApi env (query input) (focusName (focus input)) with
       | Ok _ => startsWith successResultPrefix out = true
                 /\ startsWith errorResultPrefix out = false
       | Throw _ => startsWith errorResultPrefix out = true
                    /\ startsWith successResultPrefix out = false
       end.
Proof.
  unfold searchPerplexity_func, try_catch, bindO.
  destruct (callPerplexityApi env (query input) (focusName (focus input)))
    as [result|e]; eexists; (split; [reflexivity|]); split; reflexivity.
Qed.

Lemma parseFocus_focusName fo : parseFocus (focusName fo) = Some fo.
Proof. destruct fo; reflexivity. Qed.

Lemma parseFocus_inv s fo : parseFocus s = Some fo -> s = focusName fo.
Proof.
  unfold parseFocus.
  destruct (String.eqb s "finance") eqn:E1;
    [apply String.eqb_eq in E1; intros H; injection H as <-; exact E1|].
  destruct (String.eqb s "news") eqn:E2;
    [apply String.eqb_eq in E2; intros H; injection H as <-; exact E2|].
  destruct (String.eqb s "general") eqn:E3;
    [apply String.eqb_eq in E3; intros H; injection H as <-; exact E3|].
  discriminate.
Qed.

(** X21. The input schema accepts exactly the objects whose [query] is a
    string and whose [focus] is one of "finance", "news" and "general",
    other fields being ignored; the object written from an input is
    read back as that input, and the registered tool then runs [func]
    on it. *)
Theorem parseInput_accepts
  (env : Environment) (fields : list (string * JSON)) (input : PerplexitySearchInput) :
  (parseInput (JObject fields) = Some input <->
     lookupField "query" fields = Some (JString (query input))
     /\ lookupField "focus" fields = Some (JString (focusName (focus input))))
  /\ parseInput (JObject [("query", JString (query input));
                          ("focus", JString (focusName (focus input)))])
     = Some input
  /\ invoke (searchPerplexity env)
            (JObject [("query", JString (query input));
                      ("focus", JString (focusName (focus input)))])
     = searchPerplexity_func env input.
Proof.
  assert (Hround : parseInput (JObject [("query", JString (query input));
                                        ("focus", JString (focusName (focus input)))])
                   = Some input).
  { destruct input as [q []]; reflexivity. }
  split; [|split; [exact Hround|]].
  - unfold parseInput. split.
    + destruct (lookupField "query" fields) as [[q| | | |]|]; try discriminate.
      destruct (lookupField "focus" fields) as [[f| | | |]|]; try discriminate.
      destruct (parseFocus f) as [fo|] eqn:Ef; [|discriminate].
      intros H. injection H as <-. cbn [query focus].
      apply parseFocus_inv in Ef. subst f. split; reflexivity.
    + intros [-> ->]. rewrite parseFocus_focusName. now destruct input.
  - unfold searchPerplexity. cbn [invoke]. now rewrite Hround.
Qed.

End SearchToolFacts.

(** ** [ChatGrok.invocationParams] *)

Lemma lookupField_deleteField key deleted fields :
  lookupField key (deleteField deleted fields)
  = if String.eqb key deleted then None else lookupField key fields.
Proof.
  induction fields as [|[k v] rest IH]; simpl.
  - now destruct (String.eqb key deleted).
  - destruct (String.eqb k deleted) eqn:Ed; cbn [negb].
    + rewrite IH. destruct (String.eqb key deleted) eqn:Ek; [reflexivity|].
      destruct (String.eqb k key) eqn:Ekk; [|reflexivity].
      apply String.eqb_eq in Ed, Ekk. subst. now rewrite String.eqb_refl in Ek.
    + cbn [lookupField]. destruct (String.eqb k key) eqn:Ekk.
      * apply String.eqb_eq in Ekk. subst k. now rewrite Ed.
      * exact IH.
Qed.

(** X22. The parameters [ChatGrok] sends never carry [presence_penalty]
    or [frequency_penalty], and every other parameter of the parent class
    is passed on with the value it had. *)
Theorem invocationParams_strips_penalties
  (superParams : list (string * JSON)) (key : string) :
  lookupField key (invocationParams superParams)
  = if String.eqb key "presence_penalty" || String.eqb key "frequency_penalty"
    then None
    else lookupField key superParams.
Proof.
  unfold invocationParams. rewrite !lookupField_deleteField.
  destruct (String.eqb key "frequency_penalty");
    destruct (String.eqb key "presence_penalty"); reflexivity.
Qed.
